(** * czsc.utils.timeout_decorator: a thread-based timeout wrapper

    Shallow embedding of [timeout_decorator] from [czsc/utils/__init__.py]
    and of the part of the Python runtime it drives: one-element lists used
    as closure cells, [threading.Thread] ([start], [join], [is_alive]),
    [functools.wraps] and [loguru]'s [logger.warning].

    Time is a logical clock counted in seconds, the unit of the [timeout]
    argument.  A call of the work function is described by its behaviour:
    how long it runs and how it ends, or that it never ends; the behaviour
    depends on the arguments only.  A thread is an entry in a table; the
    passing of time lets the threads whose work has ended store their result
    and stop.  A worker may keep the interpreter to itself for a while (one
    long call into C holds the interpreter lock), and the caller, when it
    is ready to run, does not run meanwhile: for how long is a parameter of
    the scheduler, as is the outcome of the race when the work ends at the
    very moment the caller looks at the thread.  Only the worker of a call
    is taken to compete with its caller.  The statements of [wrapper] take
    no time of their own, and the deadline is [None] or a whole number of
    seconds.  What the interpreter prints on stderr when a thread dies of an
    uncaught exception is not part of the model. *)

From Stdlib Require Import ZArith NArith String Ascii List Bool Lia Sorted.
From Stdlib Require Import Decimal DecimalString DecimalNat Permutation.
From stdpp Require Import base option list gmap strings.

Open Scope string_scope.
Open Scope list_scope.
Open Scope Z_scope.

(** ** Python values *)

(** An exception object.  [exc_id] is its identity, [exc_isException] says
    whether it is an instance of [Exception] (as opposed to a bare
    [BaseException] such as [SystemExit] or [KeyboardInterrupt]) and
    [exc_truth] is [bool(e)]: [True] unless the class defines [__bool__] or
    [__len__] otherwise. *)
Record exc_obj := ExcObj {
  exc_id : nat;
  exc_type : string;
  exc_isException : bool;
  exc_args : string;
  exc_truth : bool
}.

(** A float is given by its [repr], which is also what [str] prints. *)
Inductive pyval :=
| PyNone
| PyBool (b : bool)
| PyInt (z : Z)
| PyFloat (repr : string)
| PyStr (s : string)
| PyExc (e : exc_obj).

(** Truth value testing, as done by [if x:]. *)
Definition truthy (v : pyval) : bool :=
  match v with
  | PyNone => false
  | PyBool b => b
  | PyInt z => negb (z =? 0)
  | PyFloat r => negb (String.eqb r "0.0" || String.eqb r "-0.0")
  | PyStr s => negb (String.eqb s "")
  | PyExc e => exc_truth e
  end.

(** Exceptions raised by the interpreter itself. *)
Definition builtin_error (type msg : string) : exc_obj :=
  {| exc_id := 0; exc_type := type; exc_isException := true;
     exc_args := msg; exc_truth := true |}.

Definition IndexError := builtin_error "IndexError" "list index out of range".
Definition RuntimeError (msg : string) := builtin_error "RuntimeError" msg.
Definition TypeError (msg : string) := builtin_error "TypeError" msg.
Definition OverflowError (msg : string) := builtin_error "OverflowError" msg.

(** [AttributeError], for the attribute that is missing. *)
Definition AttributeError (attr : string) := builtin_error "AttributeError" attr.

(** [threading.TIMEOUT_MAX], in seconds, on a 64-bit build: the longest
    wait [join] accepts. *)
Definition TIMEOUT_MAX : Z := 9223372036.

(** ** Functions and the work they do *)

Definition pyargs := list pyval.
Definition pykwargs := list (string * pyval).

(** How a call that terminates ends. *)
Inductive completion :=
| Returns (v : pyval)
| Throws (e : exc_obj).

(** What a call of the work function does: it ends after [after] seconds,
    or it runs forever. *)
Inductive behaviour :=
| Terminates (after : N) (c : completion)
| Diverges.

(** When a caller that is ready to run [t] seconds after the work began
    runs again, in seconds after the work began.  [hold] says for how long
    the work then still keeps the interpreter to itself, [None] meaning for
    as long as it runs; work that has ended holds nothing.  The result
    [None] means never. *)
Definition resume_of (hold : option N) (b : behaviour) (t : N) : option N :=
  match hold, b with
  | Some h, Terminates n _ => Some (N.max t (N.min (t + h) n))
  | Some h, Diverges => Some (t + h)%N
  | None, Terminates n _ => Some (N.max t n)
  | None, Diverges => None
  end.

(** A callable object: the attributes [functools.wraps] looks for, and the
    body.  A function has them all; a callable that is not a function (an
    instance of a class with [__call__], a [functools.partial]) has no
    [__name__] and no [__qualname__], which is [None] here. *)
Record pyfunction (B : Type) := PyFunction {
  fn_module : string;
  fn_name : option string;
  fn_qualname : option string;
  fn_doc : option string;
  fn_call : B
}.
Arguments PyFunction {B}.
Arguments fn_module {B}.
Arguments fn_name {B}.
Arguments fn_qualname {B}.
Arguments fn_doc {B}.
Arguments fn_call {B}.

Definition workfn := pyfunction (pyargs -> pykwargs -> behaviour).

(** [functools.wraps(wrapped)(wrapper)]: each attribute of
    [WRAPPER_ASSIGNMENTS] that [wrapped] has is set on [wrapper], one that
    it has not is left as [wrapper] has it; the body stays. *)
Definition wraps {A B} (wrapped : pyfunction A) (wrapper : pyfunction B)
  : pyfunction B :=
  {| fn_module := fn_module wrapped;
     fn_name :=
       match fn_name wrapped with
       | Some name => Some name
       | None => fn_name wrapper
       end;
     fn_qualname :=
       match fn_qualname wrapped with
       | Some name => Some name
       | None => fn_qualname wrapper
       end;
     fn_doc := fn_doc wrapped;
     fn_call := fn_call wrapper |}.

(** ** The world: clock, heap of lists, threads, log *)

(** Locations of list objects. *)
Abbreviation loc := nat.

(** The closure of [target]: the variables of [wrapper] it captures. *)
Record closure := Closure {
  cl_func : workfn;
  cl_args : pyargs;
  cl_kwargs : pykwargs;
  cl_result : loc;
  cl_exception : loc
}.

Inductive tstate :=
| Initial
| Running (since : Z)
| Stopped.

Record thread := Thread {
  th_target : closure;
  th_state : tstate
}.

Inductive level := TRACE | DEBUG | INFO | SUCCESS | WARNING | ERROR | CRITICAL.

(** The pieces of an f-string: literal text and formatted fields. *)
Inductive fragment :=
| Lit (s : string)
| FmtStr (s : string)
| FmtTimeout (t : option Z)
| FmtArgs (args : pyargs)
| FmtKwargs (kwargs : pykwargs).

Record log_event := LogEvent {
  ev_level : level;
  ev_message : list fragment
}.

Record world := World {
  w_clock : Z;
  w_next : loc;
  w_heap : gmap loc (list pyval);
  w_threads : list thread;
  w_log : list log_event
}.

Definition init_world : world :=
  {| w_clock := 0; w_next := 0%nat; w_heap := ∅; w_threads := []; w_log := [] |}.

Definition set_clock (t : Z) (w : world) : world :=
  {| w_clock := t; w_next := w_next w; w_heap := w_heap w;
     w_threads := w_threads w; w_log := w_log w |}.

Definition set_heap (h : gmap loc (list pyval)) (w : world) : world :=
  {| w_clock := w_clock w; w_next := w_next w; w_heap := h;
     w_threads := w_threads w; w_log := w_log w |}.

Definition set_threads (ts : list thread) (w : world) : world :=
  {| w_clock := w_clock w; w_next := w_next w; w_heap := w_heap w;
     w_threads := ts; w_log := w_log w |}.

(** ** Running the worker *)

(** [x[i] = v] on the list stored at [l].  The wrapper only ever writes
    index 0 of a one-element list, so the index is in range. *)
Definition setitem (l : loc) (i : nat) (v : pyval)
  (h : gmap loc (list pyval)) : gmap loc (list pyval) :=
  alter (fun xs => <[i:=v]> xs) l h.

Definition call_work (c : closure) : behaviour :=
  fn_call (cl_func c) (cl_args c) (cl_kwargs c).

(** The effect of [target] once the call of [func] has ended:
<<
    try:
        result[0] = func(...)
    except Exception as e:
        exception[0] = e
>>
    An exception that is not an [Exception] instance is not caught: it ends
    the thread and leaves both cells as they are. *)
Definition target (c : closure) (h : gmap loc (list pyval))
  : gmap loc (list pyval) :=
  match call_work c with
  | Terminates _ (Returns v) => setitem (cl_result c) 0 v h
  | Terminates _ (Throws e) =>
      if exc_isException e then setitem (cl_exception c) 0 (PyExc e) h else h
  | Diverges => h
  end.

(** The time at which a running thread ends, if ever. *)
Definition finish_time (th : thread) : option Z :=
  match th_state th, call_work (th_target th) with
  | Running since, Terminates after _ => Some (since + Z.of_N after)
  | _, _ => None
  end.

Definition is_running (th : thread) : bool :=
  match th_state th with Running _ => true | _ => false end.

Definition stop (th : thread) : thread :=
  {| th_target := th_target th; th_state := Stopped |}.

(** A thread whose work ended strictly before [now] has stored its result
    and stopped. *)
Definition ended_before (now : Z) (th : thread) : bool :=
  match finish_time th with
  | Some T => T <? now
  | None => false
  end.

Fixpoint reap (now : Z) (ts : list thread) (h : gmap loc (list pyval))
  : list thread * gmap loc (list pyval) :=
  match ts with
  | [] => ([], h)
  | th :: ts' =>
      let '(ts'', h') := reap now ts' h in
      if ended_before now th then (stop th :: ts'', target (th_target th) h')
      else (th :: ts'', h')
  end.

(** Let the clock reach [t] (it never goes back). *)
Definition advance_to (t : Z) (w : world) : world :=
  let now := Z.max (w_clock w) t in
  let '(ts, h) := reap now (w_threads w) (w_heap w) in
  set_threads ts (set_heap h (set_clock now w)).

(** [dt] seconds pass while the caller does something else. *)
Definition elapse (dt : N) (w : world) : world :=
  advance_to (w_clock w + Z.of_N dt) w.

(** Thread [tid] ends now: it stores its result and stops. *)
Definition finish (tid : nat) (w : world) : world :=
  match w_threads w !! tid with
  | Some th =>
      if is_running th then
        set_threads (<[tid := stop th]> (w_threads w))
          (set_heap (target (th_target th) (w_heap w)) w)
      else w
  | None => w
  end.

(** ** A state and error monad for the calling thread *)

(** A computation of the caller ends with a value, ends with an exception
    propagating, or never ends. *)
Inductive run (A : Type) :=
| Done (a : A) (w : world)
| Throw (e : exc_obj) (w : world)
| Hang.
Arguments Done {A}.
Arguments Throw {A}.
Arguments Hang {A}.

Definition M (A : Type) := world -> run A.

#[global] Instance M_ret : MRet M := fun A a w => Done a w.

#[global] Instance M_bind : MBind M := fun A B f m w =>
  match m w with
  | Done a w' => f a w'
  | Throw e w' => Throw e w'
  | Hang => Hang
  end.

(** [raise v] *)
Definition raise {A} (v : pyval) : M A := fun w =>
  match v with
  | PyExc e => Throw e w
  | _ => Throw (TypeError "exceptions must derive from BaseException") w
  end.

(** [[x]]: a new list object. *)
Definition new_list (xs : list pyval) : M loc := fun w =>
  Done (w_next w)
    {| w_clock := w_clock w; w_next := S (w_next w);
       w_heap := <[w_next w := xs]> (w_heap w);
       w_threads := w_threads w; w_log := w_log w |}.

(** [x[i]] *)
Definition getitem (l : loc) (i : nat) : M pyval := fun w =>
  match w_heap w !! l ≫= (fun xs => xs !! i) with
  | Some v => Done v w
  | None => Throw IndexError w
  end.

(** [logger.warning(msg)] *)
Definition logger_warning (msg : list fragment) : M unit := fun w =>
  Done tt
    {| w_clock := w_clock w; w_next := w_next w; w_heap := w_heap w;
       w_threads := w_threads w;
       w_log := w_log w ++ [{| ev_level := WARNING; ev_message := msg |}] |}.

(** ** threading.Thread *)

(** [threading.Thread(target=target)]; the thread object is named by its
    index in the table. *)
Definition Thread_new (c : closure) : M nat := fun w =>
  Done (length (w_threads w))
    (set_threads (w_threads w ++ [{| th_target := c; th_state := Initial |}]) w).

Section Scheduler.

(** When the work ends at the very second at which the caller looks at the
    thread (its wait is over, or it runs again), the caller and the worker
    race; [tie_finished] says whether the caller then sees the thread as
    ended. *)
Variable tie_finished : bool.

(** For how long the work of a call keeps the interpreter to itself when
    its caller is ready to run, so many seconds after the work began
    ([None]: for as long as the work runs). *)
Variable hold : workfn -> pyargs -> pykwargs -> N -> option N.

Definition resume (c : closure) (t : N) : option N :=
  resume_of (hold (cl_func c) (cl_args c) (cl_kwargs c) t) (call_work c) t.

(** Has the thread ended by [now], as its caller sees it? *)
Definition ended_by (now : Z) (th : thread) : bool :=
  match finish_time th with
  | Some T => (T <? now) || ((T =? now) && tie_finished)
  | None => false
  end.

(** [thread.start()]: the thread runs from now on, and the caller goes on
    once the worker lets it run.  The threads that end meanwhile are reaped
    by the wait that follows. *)
Definition Thread_start (tid : nat) : M unit := fun w =>
  match w_threads w !! tid with
  | Some {| th_target := c; th_state := Initial |} =>
      match resume c 0 with
      | Some k =>
          Done tt
            (set_clock (w_clock w + Z.of_N k)
               (set_threads
                  (<[tid := {| th_target := c; th_state := Running (w_clock w) |}]>
                     (w_threads w)) w))
      | None => Hang
      end
  | _ => Throw (RuntimeError "threads can only be started once") w
  end.

(** [thread.join(timeout)]: wait until the thread ends, for at most
    [max(timeout, 0)] seconds when [timeout] is not [None].  A wait longer
    than [TIMEOUT_MAX] is refused at once, with [OverflowError].  A caller
    whose wait is over without the thread having ended goes on once the
    worker lets it run. *)
Definition Thread_join (tid : nat) (timeout : option Z) : M unit := fun w =>
  match w_threads w !! tid with
  | None => Throw (RuntimeError "cannot join thread before it is started") w
  | Some th =>
      match th_state th with
      | Initial =>
          Throw (RuntimeError "cannot join thread before it is started") w
      | Stopped => Done tt w
      | Running since =>
          match timeout with
          | None =>
              match finish_time th with
              | Some T => Done tt (finish tid (advance_to T w))
              | None => Hang
              end
          | Some d =>
              if TIMEOUT_MAX <? d then
                Throw (OverflowError "timestamp too large to convert to C _PyTime_t")
                  (advance_to (w_clock w) w)
              else
                let deadline := w_clock w + Z.max d 0 in
                match finish_time th with
                | Some T =>
                    if ended_by deadline th
                    then Done tt (finish tid (advance_to T w))
                    else
                      match resume (th_target th) (Z.to_N (deadline - since)) with
                      | Some r => Done tt (advance_to (since + Z.of_N r) w)
                      | None => Hang
                      end
                | None =>
                    match resume (th_target th) (Z.to_N (deadline - since)) with
                    | Some r => Done tt (advance_to (since + Z.of_N r) w)
                    | None => Hang
                    end
                end
          end
      end
  end.

(** [thread.is_alive()]: a thread found to have ended is stopped. *)
Definition Thread_is_alive (tid : nat) : M bool := fun w =>
  match w_threads w !! tid with
  | Some th =>
      if is_running th then
        if ended_by (w_clock w) th then Done false (finish tid w)
        else Done true w
      else Done false w
  | None => Done false w
  end.

(** ** The decorator *)

(** Which statement ended a call that returned: [return None] after the
    timeout, or [return result[0]]; a call that raised is [Failed]. *)
Inductive path := Completed | Failed | TimedOut.

(** [func.__name__] *)
Definition getattr_name (func : workfn) : M string := fun w =>
  match fn_name func with
  | Some name => Done name w
  | None => Throw (AttributeError "__name__") w
  end.

Definition timeout_message (timeout : option Z) (name : string)
  (args : pyargs) (kwargs : pykwargs) : list fragment :=
  [FmtStr name; Lit " timed out after "; FmtTimeout timeout;
   Lit " seconds; args: "; FmtArgs args; Lit "; kwargs: "; FmtKwargs kwargs].

Definition wrapper (timeout : option Z) (func : workfn)
  (args : pyargs) (kwargs : pykwargs) : M (path * pyval) :=
  result ← new_list [PyNone];
  exception ← new_list [PyNone];
  thread ← Thread_new
    {| cl_func := func; cl_args := args; cl_kwargs := kwargs;
       cl_result := result; cl_exception := exception |};
  _ ← Thread_start thread;
  _ ← Thread_join thread timeout;
  alive ← Thread_is_alive thread;
  if (alive : bool) then
    name ← getattr_name func;
    _ ← logger_warning (timeout_message timeout name args kwargs);
    mret (TimedOut, PyNone)
  else
    e ← getitem exception 0;
    if truthy e then
      e' ← getitem exception 0;
      raise e'
    else
      v ← getitem result 0;
      mret (Completed, v).

(** What the Python caller of [wrapper] gets: the tag is not part of it. *)
Definition call (timeout : option Z) (func : workfn)
  (args : pyargs) (kwargs : pykwargs) : M pyval :=
  r ← wrapper timeout func args kwargs;
  mret (snd r).

Definition decorator (timeout : option Z) (func : workfn)
  : pyfunction (pyargs -> pykwargs -> M pyval) :=
  wraps func
    {| fn_module := "czsc.utils";
       fn_name := Some "wrapper";
       fn_qualname := Some "timeout_decorator.<locals>.decorator.<locals>.wrapper";
       fn_doc := None;
       fn_call := call timeout func |}.

Definition timeout_decorator (timeout : option Z) := decorator timeout.

End Scheduler.

(** ** Observations *)

(** The outcome of a call, without the world. *)
Inductive outcome (A : Type) :=
| Returned (a : A)
| Raised (e : exc_obj)
| Blocked.
Arguments Returned {A}.
Arguments Raised {A}.
Arguments Blocked {A}.

Definition outcome_of {A} (r : run A) : outcome A :=
  match r with
  | Done a _ => Returned a
  | Throw e _ => Raised e
  | Hang => Blocked
  end.

Definition world_of {A} (r : run A) : option world :=
  match r with
  | Done _ w => Some w
  | Throw _ w => Some w
  | Hang => None
  end.

(** Sample work. *)
Definition mkfn (name : string) (body : pyargs -> pykwargs -> behaviour) : workfn :=
  {| fn_module := "__main__"; fn_name := Some name; fn_qualname := Some name;
     fn_doc := Some "sample"; fn_call := body |}.

Definition sleep_then_return (seconds : N) (v : pyval) : workfn :=
  mkfn "sleep_then_return" (fun _ _ => Terminates seconds (Returns v)).

Definition sleep_then_raise (seconds : N) (e : exc_obj) : workfn :=
  mkfn "sleep_then_raise" (fun _ _ => Terminates seconds (Throws e)).

Definition loop_forever : workfn :=
  mkfn "loop_forever" (fun _ _ => Diverges).

(** A callable that is not a function, such as
    [functools.partial(time.sleep, seconds)]. *)
Definition partial_sleep (seconds : N) : workfn :=
  {| fn_module := "functools"; fn_name := None; fn_qualname := None;
     fn_doc := Some "partial(func, *args, **keywords)";
     fn_call := fun _ _ => Terminates seconds (Returns PyNone) |}.

(** Work that lets the caller run whenever it is ready, work that keeps
    the interpreter to itself for as long as it runs, and work that does so
    from [t0] seconds after its start. *)
Definition no_hold (func : workfn) (args : pyargs) (kwargs : pykwargs) (t : N)
  : option N := Some 0%N.

Definition holds_throughout (func : workfn) (args : pyargs) (kwargs : pykwargs)
  (t : N) : option N := None.

Definition holds_from (t0 : N) (func : workfn) (args : pyargs) (kwargs : pykwargs)
  (t : N) : option N := if (t <? t0)%N then Some 0%N else None.

Definition ValueError_bad_input : exc_obj :=
  {| exc_id := 7; exc_type := "ValueError"; exc_isException := true;
     exc_args := "bad input"; exc_truth := true |}.

Definition SystemExit_1 : exc_obj :=
  {| exc_id := 8; exc_type := "SystemExit"; exc_isException := false;
     exc_args := "1"; exc_truth := true |}.

(** An [Exception] subclass whose [__len__] returns 0. *)
Definition EmptyError : exc_obj :=
  {| exc_id := 9; exc_type := "EmptyError"; exc_isException := true;
     exc_args := ""; exc_truth := false |}.

(** ** The invariant of the world *)

(** The cells a thread writes were allocated before the next free location. *)
Definition thread_ok (next : loc) (th : thread) : bool :=
  (cl_result (th_target th) <? next)%nat && (cl_exception (th_target th) <? next)%nat.

Definition world_ok (w : world) : bool :=
  forallb (thread_ok (w_next w)) (w_threads w).

(** The worlds a program gets to by letting time pass and calling decorated
    functions. *)
Inductive reachable (tie_finished : bool)
  (hold : workfn -> pyargs -> pykwargs -> N -> option N) : world -> Prop :=
| reach_init : reachable tie_finished hold init_world
| reach_elapse dt w :
    reachable tie_finished hold w -> reachable tie_finished hold (elapse dt w)
| reach_call timeout func args kwargs w w' :
    reachable tie_finished hold w ->
    world_of (wrapper tie_finished hold timeout func args kwargs w) = Some w' ->
    reachable tie_finished hold w'.

(** ** What a call is expected to do *)

(** Is work that lasts [n] seconds seen as done [t] seconds after it
    began? *)
Definition done_by (tie_finished : bool) (n t : N) : bool :=
  (n <? t)%N || ((n =? t)%N && tie_finished).

(** How a call goes, from the scheduler, the deadline and the behaviour of
    the work: the work is seen to end, after [n] seconds and with [c]; the
    caller gives up and runs again [r] seconds after the work began; [join]
    refuses the deadline [k] seconds after the work began; or the caller
    never runs again. *)
Inductive fate :=
| Ends (n : N) (c : completion)
| GivesUp (r : N)
| Refused (k : N)
| Never.

Definition fate_of (tie_finished : bool) (hold : N -> option N)
  (timeout : option Z) (b : behaviour) : fate :=
  match resume_of (hold 0%N) b 0 with
  | None => Never
  | Some k =>
      match timeout with
      | None =>
          match b with
          | Terminates n c => Ends n c
          | Diverges => Never
          end
      | Some d =>
          if TIMEOUT_MAX <? d then Refused k
          else
            let t := (k + Z.to_N d)%N in
            match b with
            | Terminates n c =>
                if done_by tie_finished n t then Ends n c
                else
                  match resume_of (hold t) b t with
                  | Some r => if done_by tie_finished n r then Ends n c else GivesUp r
                  | None => Never
                  end
            | Diverges =>
                match resume_of (hold t) b t with
                | Some r => GivesUp r
                | None => Never
                end
            end
      end
  end.

(** The exceptions the worker stores and the caller raises again. *)
Definition captured (e : exc_obj) : bool := exc_isException e && exc_truth e.

(** ** The worlds a call goes through *)

(** The closure [wrapper] builds when called in [w]: its two cells are the
    next two free locations. *)
Definition closure_in (w : world) (func : workfn) (args : pyargs)
  (kwargs : pykwargs) : closure :=
  {| cl_func := func; cl_args := args; cl_kwargs := kwargs;
     cl_result := w_next w; cl_exception := S (w_next w) |}.

(** The handle of the thread [wrapper] creates when called in [w]. *)
Definition thread_in (w : world) : nat := length (w_threads w).

(** The worker of a call made in [w], once started. *)
Definition worker_in (w : world) (func : workfn) (args : pyargs)
  (kwargs : pykwargs) : thread :=
  {| th_target := closure_in w func args kwargs; th_state := Running (w_clock w) |}.

(** The heap of [w] with the two fresh cells of a call. *)
Definition heap_in (w : world) : gmap loc (list pyval) :=
  <[S (w_next w) := [PyNone]]> (<[w_next w := [PyNone]]> (w_heap w)).

(** The world in which the worker has just been started. *)
Definition started (func : workfn) (args : pyargs) (kwargs : pykwargs)
  (w : world) : world :=
  {| w_clock := w_clock w; w_next := S (S (w_next w));
     w_heap := heap_in w;
     w_threads := w_threads w ++ [worker_in w func args kwargs];
     w_log := w_log w |}.

(** The world in which a call whose worker ended after [n] seconds goes on. *)
Definition joined (n : N) (func : workfn) (args : pyargs) (kwargs : pykwargs)
  (w : world) : world :=
  finish (thread_in w)
    (advance_to (w_clock w + Z.of_N n) (started func args kwargs w)).

(** The world in which the caller goes on after [thread.start()], [k]
    seconds later. *)
Definition resumed (k : N) (func : workfn) (args : pyargs) (kwargs : pykwargs)
  (w : world) : world :=
  set_clock (w_clock w + Z.of_N k) (started func args kwargs w).

(** The world in which a call whose deadline [join] refuses raises, [k]
    seconds after the work began. *)
Definition refused (k : N) (func : workfn) (args : pyargs) (kwargs : pykwargs)
  (w : world) : world :=
  advance_to (w_clock w + Z.of_N k) (started func args kwargs w).

(** The world in which a caller whose wait is over runs again, [r] seconds
    after the work began. *)
Definition gave_up (r : N) (func : workfn) (args : pyargs) (kwargs : pykwargs)
  (w : world) : world :=
  advance_to (w_clock w + Z.of_N r) (started func args kwargs w).

(** The world in which a call that gave up returns, having logged the
    warning. *)
Definition abandoned (r : N) (timeout : option Z) (name : string) (func : workfn)
  (args : pyargs) (kwargs : pykwargs) (w : world) : world :=
  let w' := gave_up r func args kwargs w in
  {| w_clock := w_clock w'; w_next := w_next w'; w_heap := w_heap w';
     w_threads := w_threads w';
     w_log := w_log w' ++
       [{| ev_level := WARNING;
           ev_message := timeout_message timeout name args kwargs |}] |}.

(** The cell [x[0]] of the list at [l], if there is one. *)
Definition cell (l : loc) (w : world) : option pyval :=
  w_heap w !! l ≫= (fun xs => xs !! 0%nat).

(** The state of thread [tid], if there is one. *)
Definition state_of (tid : nat) (w : world) : option tstate :=
  th_state <$> w_threads w !! tid.

(** What the two cells hold once the worker has ended. *)
Definition stored_result (c : completion) : pyval :=
  match c with Returns v => v | Throws _ => PyNone end.

Definition stored_exception (c : completion) : pyval :=
  match c with
  | Returns _ => PyNone
  | Throws e => if exc_isException e then PyExc e else PyNone
  end.

(** When a caller that waits [d] seconds (not at all when [d] is
    negative) for work it has started runs again after its wait, in seconds
    after the work began. *)
Definition gives_up_at (hold : N -> option N) (b : behaviour) (d : Z) : option N :=
  match resume_of (hold 0%N) b 0 with
  | Some k => resume_of (hold (k + Z.to_N d)%N) b (k + Z.to_N d)
  | None => None
  end.

(** The caller runs again after its wait of [d] seconds, and the work is
    not done by then. *)
Definition outlasts (hold : N -> option N) (b : behaviour) (d : Z) : Prop :=
  match gives_up_at hold b d, b with
  | Some r, Terminates n _ => (r < n)%N
  | Some r, Diverges => True
  | None, _ => False
  end.

(** The warning [wrapper] logs when it gives up. *)
Definition timeout_event (timeout : option Z) (name : string)
  (args : pyargs) (kwargs : pykwargs) : log_event :=
  {| ev_level := WARNING; ev_message := timeout_message timeout name args kwargs |}.

(** Every list and every thread of [w] is in [w'] as the passing of time
    alone, up to the clock of [w'], leaves it. *)
Definition untouched (w w' : world) : Prop :=
  (forall l : loc, (l < w_next w)%nat ->
     w_heap w' !! l = w_heap (advance_to (w_clock w') w) !! l) /\
  (forall tid : nat, (tid < length (w_threads w))%nat ->
     w_threads w' !! tid = w_threads (advance_to (w_clock w') w) !! tid).

(** What a call whose work ended in time does. *)
Definition completion_outcome (c : completion) : outcome (path * pyval) :=
  match c with
  | Returns v => Returned (Completed, v)
  | Throws e => if captured e then Raised e else Returned (Completed, PyNone)
  end.

(** The outcome of a call, from the scheduler, the deadline, the name of
    the work function, if it has one, and the behaviour of the work alone. *)
Definition verdict (tie_finished : bool) (hold : N -> option N)
  (timeout : option Z) (name : option string) (b : behaviour)
  : outcome (path * pyval) :=
  match fate_of tie_finished hold timeout b with
  | Ends _ c => completion_outcome c
  | GivesUp _ =>
      match name with
      | Some _ => Returned (TimedOut, PyNone)
      | None => Raised (AttributeError "__name__")
      end
  | Refused _ =>
      Raised (OverflowError "timestamp too large to convert to C _PyTime_t")
  | Never => Blocked
  end.

(** Work that is not over [r] seconds after it began. *)
Definition lasts (b : behaviour) (r : N) : bool :=
  match b with
  | Terminates n _ => (r <=? n)%N
  | Diverges => true
  end.

(** What a call made in [w] does, by its fate. *)
Definition run_of (f : fate) (timeout : option Z) (func : workfn)
  (args : pyargs) (kwargs : pykwargs) (w : world) : run (path * pyval) :=
  match f with
  | Ends n (Returns v) => Done (Completed, v) (joined n func args kwargs w)
  | Ends n (Throws e) =>
      if captured e then Throw e (joined n func args kwargs w)
      else Done (Completed, PyNone) (joined n func args kwargs w)
  | GivesUp r =>
      match fn_name func with
      | Some name =>
          Done (TimedOut, PyNone) (abandoned r timeout name func args kwargs w)
      | None => Throw (AttributeError "__name__") (gave_up r func args kwargs w)
      end
  | Refused k =>
      Throw (OverflowError "timestamp too large to convert to C _PyTime_t")
        (refused k func args kwargs w)
  | Never => Hang
  end.

(** ** freqs_sorted *)

(** The bar periods, from the finest to the coarsest.  Strings are the
    UTF-8 bytes of the Python strings, so equality is the same. *)
Definition sorted_freqs : list string :=
  ["Tick"; "1分钟"; "2分钟"; "3分钟"; "4分钟"; "5分钟"; "6分钟"; "10分钟";
   "12分钟"; "15分钟"; "20分钟"; "30分钟"; "60分钟"; "120分钟"; "日线"; "周线";
   "月线"; "季线"; "年线"].

(** [x in xs] for a list of strings. *)
Definition py_in (x : string) (xs : list string) : bool :=
  existsb (String.eqb x) xs.

(** [[x for x in sorted_freqs if x in freqs]] *)
Definition freqs_sorted (freqs : list string) : list string :=
  List.filter (fun x => py_in x freqs) sorted_freqs.

(** The place of a period in [sorted_freqs] ([sorted_freqs.index(x)]). *)
Fixpoint index_of (x : string) (xs : list string) : option nat :=
  match xs with
  | [] => None
  | y :: ys => if String.eqb y x then Some 0%nat else S <$> index_of x ys
  end.

(** ** import_by_name *)

(** ["." in name] *)
Fixpoint has_dot (s : string) : bool :=
  match s with
  | EmptyString => false
  | String c s' => Ascii.eqb c "." || has_dot s'
  end.

(** The parts of [s] before and after its last ["."], if it has one. *)
Fixpoint split_last_dot (s : string) : option (string * string) :=
  match s with
  | EmptyString => None
  | String c s' =>
      match split_last_dot s' with
      | Some (before, after) => Some (String c before, after)
      | None => if Ascii.eqb c "." then Some (EmptyString, s') else None
      end
  end.

(** [s.rsplit(".", 1)] *)
Definition rsplit_dot (s : string) : list string :=
  match split_last_dot s with
  | Some (before, after) => [before; after]
  | None => [s]
  end.

(** What [import_by_name] returns: a module, or an entry of the namespace
    of a module. *)
Inductive imported (module value : Type) :=
| Module (m : module)
| Attribute (v : value).
Arguments Module {module value}.
Arguments Attribute {module value}.

Definition KeyError (key : string) : exc_obj := builtin_error "KeyError" key.
Definition ValueError (msg : string) : exc_obj := builtin_error "ValueError" msg.

Section ImportSystem.

(** The import system is a parameter: [import_module name fromlist] stands
    for [__import__(name, globals(), locals(), fromlist)], which gives a
    module or raises, and [vars_of m] for the namespace [vars(m)] of the
    module it gave. *)
Variables module value : Type.
Variable import_module : string -> list string -> exc_obj + module.
Variable vars_of : module -> gmap string value.

Definition import_by_name (name : string) : exc_obj + imported module value :=
  if negb (has_dot name) then
    match import_module name [] with
    | inl e => inl e
    | inr m => inr (Module m)
    end
  else
    match rsplit_dot name with
    | [module_name; function_name] =>
        match import_module module_name [function_name] with
        | inl e => inl e
        | inr m =>
            match vars_of m !! function_name with
            | Some v => inr (Attribute v)
            | None => inl (KeyError function_name)
            end
        end
    | _ => inl (ValueError "not enough values to unpack (expected 2, got 1)")
    end.

End ImportSystem.

(** A sample import system: one module, whose namespace has one entry. *)
Definition sample_import (name : string) (fromlist : list string) : exc_obj + unit :=
  inr tt.

Definition sample_vars (m : unit) : gmap string Z := {["Factor" := 7]}.

(** ** mac_address *)

(** ["0123456789abcdef"[d]] *)
Definition hex_char (d : N) : ascii :=
  ascii_of_N (if (d <? 10)%N then 48 + d else 87 + d)%N.

(** The [k] lowest hexadecimal digits of [n], the lowest first. *)
Fixpoint hex_le (k : nat) (n : N) : list N :=
  match k with
  | O => []
  | S k' => (n mod 16)%N :: hex_le k' (n / 16)%N
  end.

(** ['%032x' % n], for [n] of at most 128 bits. *)
Definition format_032x (n : N) : string :=
  string_of_list_ascii (map hex_char (rev (hex_le 32 n))).

(** [c.upper()] for a character of the ASCII range. *)
Definition upper_char (c : ascii) : ascii :=
  let n := N_of_ascii c in
  if ((97 <=? n) && (n <=? 122))%N then ascii_of_N (n - 32) else c.

(** [s.upper()] *)
Fixpoint upper (s : string) : string :=
  match s with
  | EmptyString => EmptyString
  | String c s' => String (upper_char c) (upper s')
  end.

(** [s[-k:]] *)
Definition py_suffix (k : nat) (s : string) : string :=
  substring (String.length s - k) k s.

(** [range(start, stop, step)] for a positive step. *)
Definition py_range (start stop step : nat) : list nat :=
  map (fun j => start + j * step)%nat (seq 0 ((stop - start + step - 1) / step)).

(** [mac_address()], for the hardware address [node] that [uuid.getnode()]
    gives.  [uuid.UUID(int=node)] raises for an integer of more than 128
    bits; its [hex] is ['%032x' % node]. *)
Definition mac_address (node : N) : exc_obj + string :=
  if (node <? 2 ^ 128)%N then
    let x := upper (py_suffix 12 (format_032x node)) in
    inr (String.concat "-" (map (fun i => substring i 2 x) (py_range 0 11 2)))
  else inl (ValueError "int is out of range (need a 128-bit value)").

(** The value of an upper-case hexadecimal digit. *)
Definition unhex_char (c : ascii) : N :=
  let n := N_of_ascii c in
  if (n <? 58)%N then (n - 48)%N else (n - 55)%N.

(** ** create_grid_params *)

Definition AssertionError (msg : string) : exc_obj := builtin_error "AssertionError" msg.

(** A keyword argument of [create_grid_params]: a tuple, a list, or
    anything else. *)
Inductive gridval :=
| Scalar (v : pyval)
| PyTuple (vs : list pyval)
| PyList (vs : list pyval).

(** A dictionary, in insertion order. *)
Definition dict (V : Type) := list (string * V).

(** [d[k]], if [k] is a key. *)
Fixpoint dict_get {V} (k : string) (d : dict V) : option V :=
  match d with
  | [] => None
  | (k', v) :: d' => if String.eqb k' k then Some v else dict_get k d'
  end.

(** [d[k] = v]: a key already there keeps its place. *)
Fixpoint dict_set {V} (k : string) (v : V) (d : dict V) : dict V :=
  match d with
  | [] => [(k, v)]
  | (k', v') :: d' =>
      if String.eqb k' k then (k', v) :: d' else (k', v') :: dict_set k v d'
  end.

(** One turn of the first loop:
<<
    if type(v) in [int, float, str]:
        v = [v]
    assert type(v) in [tuple, list], ...
>>
    [bool] is not [int] here, as the test is on the type itself. *)
Definition candidates (k : string) (v : gridval) : exc_obj + list pyval :=
  match v with
  | Scalar (PyInt z) => inr [PyInt z]
  | Scalar (PyFloat r) => inr [PyFloat r]
  | Scalar (PyStr s) => inr [PyStr s]
  | Scalar _ => inl (AssertionError k)
  | PyTuple vs => inr vs
  | PyList vs => inr vs
  end.

(** The first loop: [params_grid], or the first failed assertion. *)
Fixpoint params_grid (kwargs : dict gridval) : exc_obj + dict (list pyval) :=
  match kwargs with
  | [] => inr []
  | (k, v) :: kwargs' =>
      match candidates k v with
      | inl e => inl e
      | inr vs =>
          match params_grid kwargs' with
          | inl e => inl e
          | inr g => inr ((k, vs) :: g)
          end
      end
  end.

(** [sorted(p.items())], for items of distinct keys. *)
Fixpoint insert_item {V} (x : string * V) (xs : dict V) : dict V :=
  match xs with
  | [] => [x]
  | y :: ys => if String.leb (fst x) (fst y) then x :: y :: ys else y :: insert_item x ys
  end.

Fixpoint sorted_items {V} (xs : dict V) : dict V :=
  match xs with
  | [] => []
  | x :: xs' => insert_item x (sorted_items xs')
  end.

(** [itertools.product]: the last list varies fastest. *)
Fixpoint product {A} (ls : list (list A)) : list (list A) :=
  match ls with
  | [] => [[]]
  | l :: ls' => flat_map (fun x => map (cons x) (product ls')) l
  end.

(** [list(ParameterGrid(grid))] of scikit-learn for one dictionary of
    sequences: the first empty sequence is refused with a [ValueError] that
    names its key; otherwise the keys are sorted and the rows are the
    product of the sequences in that order. *)
Definition ParameterGrid (grid : dict (list pyval)) : exc_obj + list (dict pyval) :=
  match find (fun item => Nat.eqb (length (snd item)) 0) grid with
  | Some item => inl (ValueError (fst item))
  | None =>
      let items := sorted_items grid in
      match items with
      | [] => inr [[]]
      | _ => inr (map (combine (map fst items)) (product (map snd items)))
      end
  end.

(** [str(v)], as an f-string formats a value. *)
Definition py_str (v : pyval) : string :=
  match v with
  | PyNone => "None"
  | PyBool true => "True"
  | PyBool false => "False"
  | PyInt z => NilEmpty.string_of_int (Z.to_int z)
  | PyFloat r => r
  | PyStr s => s
  | PyExc e => exc_args e
  end.

(** [str(i)] for a natural number. *)
Definition str_nat (i : nat) : string := NilEmpty.string_of_uint (Nat.to_uint i).

Fixpoint zeros (k : nat) : string :=
  match k with
  | O => EmptyString
  | S k' => String "0" (zeros k')
  end.

(** The padding of [s.zfill(width)], for a string of ASCII characters. *)
Definition zfill_pad (width : Z) (s : string) : string :=
  let len := Z.of_nat (String.length s) in
  if width <=? len then s
  else
    let pad := zeros (Z.to_nat (width - len)) in
    match s with
    | String c rest =>
        if Ascii.eqb c "+" || Ascii.eqb c "-" then String c (pad ++ rest)
        else (pad ++ s)%string
    | EmptyString => pad
    end.

(** The integers of the C type [ssize_t], on a 64-bit build. *)
Definition in_ssize_t (z : Z) : bool := (- 2 ^ 63 <=? z) && (z <=? 2 ^ 63 - 1).

(** [s.zfill(width)]: a width that is no [ssize_t] is refused.  Memory has
    no bound in the model. *)
Definition zfill (width : Z) (s : string) : exc_obj + string :=
  if in_ssize_t width then inr (zfill_pad width s)
  else inl (OverflowError "Python int too large to convert to C ssize_t").

(** [enumerate(xs, start)] *)
Definition enumerate {A} (start : nat) (xs : list A) : list (nat * A) :=
  combine (seq start (length xs)) xs.

(** The key of row [i]. *)
Definition row_key (multiply : Z) (i : nat) (row : dict pyval) : exc_obj + string :=
  if multiply =? 0 then
    inr (String.concat "#"
           (map (fun kv => (fst kv ++ "=" ++ py_str (snd kv))%string) row))
  else zfill multiply (str_nat i).

(** One turn of the second loop. *)
Definition add_row (prefix : string) (multiply : Z)
  (params : dict (dict pyval)) (ir : nat * dict pyval)
  : exc_obj + dict (dict pyval) :=
  match row_key multiply (fst ir) (snd ir) with
  | inl e => inl e
  | inr key =>
      let row := dict_set "version" (PyStr (prefix ++ key)) (snd ir) in
      inr (dict_set (prefix ++ "@" ++ key) row params)
  end.

(** The second loop: it stops at the first turn that raises. *)
Fixpoint add_rows (prefix : string) (multiply : Z)
  (rows : list (nat * dict pyval)) (params : dict (dict pyval))
  : exc_obj + dict (dict pyval) :=
  match rows with
  | [] => inr params
  | ir :: rows' =>
      match add_row prefix multiply params ir with
      | inl e => inl e
      | inr params' => add_rows prefix multiply rows' params'
      end
  end.

Definition create_grid_params (prefix : string) (multiply : Z)
  (kwargs : dict gridval) : exc_obj + dict (dict pyval) :=
  match params_grid kwargs with
  | inl e => inl e
  | inr grid =>
      match ParameterGrid grid with
      | inl e => inl e
      | inr rows => add_rows prefix multiply (enumerate 1 rows) []
      end
  end.

(** The key of row [i] when no width is refused. *)
Definition row_key_of (multiply : Z) (i : nat) (row : dict pyval) : string :=
  if multiply =? 0 then
    String.concat "#" (map (fun kv => (fst kv ++ "=" ++ py_str (snd kv))%string) row)
  else zfill_pad multiply (str_nat i).

(** The entry the second loop stores for row [i]. *)
Definition grid_entry (prefix : string) (multiply : Z) (ir : nat * dict pyval)
  : string * dict pyval :=
  let key := row_key_of multiply (fst ir) (snd ir) in
  ((prefix ++ "@" ++ key)%string, dict_set "version" (PyStr (prefix ++ key)) (snd ir)).

(** One turn of the second loop when the key is not refused. *)
Definition put_row (prefix : string) (multiply : Z)
  (params : dict (dict pyval)) (ir : nat * dict pyval) : dict (dict pyval) :=
  dict_set (fst (grid_entry prefix multiply ir)) (snd (grid_entry prefix multiply ir)) params.

(** Reading a decimal numeral back. *)
Definition parse_nat (s : string) : option nat :=
  Nat.of_uint <$> NilEmpty.uint_of_string s.

(** The number of candidates a keyword argument stands for. *)
Definition candidate_count (v : gridval) : nat :=
  match v with
  | Scalar _ => 1
  | PyTuple vs => length vs
  | PyList vs => length vs
  end.

(** The keyword arguments both loops accept: an [int], a [float], a
    [str], or a tuple or list that is not empty. *)
Definition accepted (v : gridval) : bool :=
  match v with
  | Scalar (PyInt _) => true
  | Scalar (PyFloat _) => true
  | Scalar (PyStr _) => true
  | Scalar _ => false
  | PyTuple vs => negb (Nat.eqb (length vs) 0)
  | PyList vs => negb (Nat.eqb (length vs) 0)
  end.

(** The product of a list of numbers. *)
Definition list_product (ns : list nat) : nat := fold_right Nat.mul 1%nat ns.

(** ** Sample runs *)

Example run_completes :
  outcome_of (wrapper true no_hold (Some 200) (sleep_then_return 50 (PyInt 42)) [] [] init_world)
  = Returned (Completed, PyInt 42).
Proof. vm_compute. reflexivity. Qed.

Example run_times_out :
  outcome_of (wrapper true no_hold (Some 200) (sleep_then_return 500 (PyInt 42)) [] [] init_world)
  = Returned (TimedOut, PyNone).
Proof. vm_compute. reflexivity. Qed.

Example run_raises :
  outcome_of (wrapper true no_hold (Some 200) (sleep_then_raise 0 ValueError_bad_input) [] []
                init_world)
  = Raised ValueError_bad_input.
Proof. vm_compute. reflexivity. Qed.

Example run_blocks :
  outcome_of (wrapper true no_hold None loop_forever [] [] init_world) = Blocked.
Proof. vm_compute. reflexivity. Qed.

(** Work that ends at the very second the wait is over: the race decides. *)
Example run_tie :
  outcome_of (wrapper true no_hold (Some 200) (sleep_then_return 200 (PyInt 42)) [] [] init_world)
  = Returned (Completed, PyInt 42) /\
  outcome_of (wrapper false no_hold (Some 200) (sleep_then_return 200 (PyInt 42)) [] [] init_world)
  = Returned (TimedOut, PyNone).
Proof. split; vm_compute; reflexivity. Qed.

(** A worker that keeps the interpreter to itself until it is done is not
    timed out. *)
Example run_held :
  outcome_of (wrapper true holds_throughout (Some 200) (sleep_then_return 500 (PyInt 42))
                [] [] init_world)
  = Returned (Completed, PyInt 42).
Proof. vm_compute. reflexivity. Qed.

(** Work that sleeps for 100 seconds and then keeps the interpreter until
    it is done: the caller, ready after 200 seconds, runs again when the
    work ends, and the race decides. *)
Example run_held_late :
  outcome_of (wrapper true (holds_from 100) (Some 200) (sleep_then_return 500 (PyInt 42))
                [] [] init_world)
  = Returned (Completed, PyInt 42) /\
  outcome_of (wrapper false (holds_from 100) (Some 200) (sleep_then_return 500 (PyInt 42))
                [] [] init_world)
  = Returned (TimedOut, PyNone) /\
  (w_clock <$> world_of (wrapper false (holds_from 100) (Some 200)
                           (sleep_then_return 500 (PyInt 42)) [] [] init_world))
  = Some 500.
Proof. repeat split; vm_compute; reflexivity. Qed.

(** A deadline above [TIMEOUT_MAX] is refused by [join]. *)
Example run_refused :
  outcome_of (wrapper true no_hold (Some 10000000000) (sleep_then_return 0 (PyInt 42))
                [] [] init_world)
  = Raised (OverflowError "timestamp too large to convert to C _PyTime_t").
Proof. vm_compute. reflexivity. Qed.

(** A callable without a name that outlasts the wait: building the warning
    fails, and nothing is logged. *)
Example run_nameless :
  outcome_of (wrapper true no_hold (Some 200) (partial_sleep 500) [] [] init_world)
  = Raised (AttributeError "__name__") /\
  (w_log <$> world_of (wrapper true no_hold (Some 200) (partial_sleep 500) [] [] init_world))
  = Some [] /\
  outcome_of (wrapper true no_hold (Some 200) (partial_sleep 50) [] [] init_world)
  = Returned (Completed, PyNone).
Proof. repeat split; vm_compute; reflexivity. Qed.

(** * Properties *)

(** ** Lists, heap and threads *)

Lemma setitem_other l l' i v (h : gmap loc (list pyval)) :
  l ≠ l' -> setitem l i v h !! l' = h !! l'.
Proof. intros Hne. unfold setitem. by rewrite lookup_alter_ne. Qed.

Lemma setitem_same l v x (h : gmap loc (list pyval)) :
  h !! l = Some [x] -> setitem l 0 v h !! l = Some [v].
Proof. intros H. unfold setitem. rewrite lookup_alter_eq, H. reflexivity. Qed.

Lemma target_other c l (h : gmap loc (list pyval)) :
  l ≠ cl_result c -> l ≠ cl_exception c -> target c h !! l = h !! l.
Proof.
  intros Hr He. unfold target.
  destruct (call_work c) as [n [v|e]|]; [ | destruct (exc_isException e) | ];
    try reflexivity; apply setitem_other; congruence.
Qed.

Lemma thread_ok_lt next th :
  thread_ok next th = true ->
  (cl_result (th_target th) < next)%nat /\ (cl_exception (th_target th) < next)%nat.
Proof.
  unfold thread_ok. rewrite andb_true_iff, !Nat.ltb_lt. tauto.
Qed.

Lemma thread_ok_mono next next' th :
  (next <= next')%nat -> thread_ok next th = true -> thread_ok next' th = true.
Proof.
  intros Hle H. apply thread_ok_lt in H. unfold thread_ok.
  rewrite andb_true_iff, !Nat.ltb_lt. lia.
Qed.

Lemma thread_ok_stop next th : thread_ok next (stop th) = thread_ok next th.
Proof. reflexivity. Qed.

Section Reap.
Variable now : Z.

Lemma reap_length ts h : length (reap now ts h).1 = length ts.
Proof.
  induction ts as [|th ts IH]; simpl; [reflexivity|].
  destruct (reap now ts h) as [ts' h']. simpl in IH.
  destruct (ended_before now th); simpl; congruence.
Qed.

Lemma reap_ok next ts h :
  forallb (thread_ok next) ts = true ->
  forallb (thread_ok next) (reap now ts h).1 = true.
Proof.
  induction ts as [|th ts IH]; simpl; [reflexivity|].
  rewrite andb_true_iff. intros [Hth Hts]. specialize (IH Hts).
  destruct (reap now ts h) as [ts' h']. simpl in IH.
  destruct (ended_before now th); simpl; rewrite ?thread_ok_stop, Hth, IH; reflexivity.
Qed.

(** Reaping leaves alone every location that is no thread's cell. *)
Lemma reap_heap_other next ts h (l : loc) :
  forallb (thread_ok next) ts = true -> (next <= l)%nat ->
  (reap now ts h).2 !! l = h !! l.
Proof.
  intros Hok Hl. induction ts as [|th ts IH]; simpl; [reflexivity|].
  simpl in Hok. apply andb_true_iff in Hok as [Hth Hts]. specialize (IH Hts).
  apply thread_ok_lt in Hth as [Hr He].
  destruct (reap now ts h) as [ts' h']. simpl in IH.
  destruct (ended_before now th); simpl; [|exact IH].
  rewrite target_other by lia. exact IH.
Qed.

Lemma reap_snoc ts th h :
  reap now (ts ++ [th]) h =
  if ended_before now th
  then ((reap now ts (target (th_target th) h)).1 ++ [stop th],
        (reap now ts (target (th_target th) h)).2)
  else ((reap now ts h).1 ++ [th], (reap now ts h).2).
Proof.
  induction ts as [|t ts IH]; simpl.
  - destruct (ended_before now th); reflexivity.
  - rewrite IH. destruct (ended_before now th).
    + destruct (reap now ts (target (th_target th) h)) as [ts' h']. simpl.
      destruct (ended_before now t); reflexivity.
    + destruct (reap now ts h) as [ts' h']. simpl.
      destruct (ended_before now t); reflexivity.
Qed.

End Reap.

(** ** When the caller runs *)

Lemma resume_of_ge h b t r : resume_of h b t = Some r -> (t <= r)%N.
Proof. destruct h, b; simpl; intros [= <-]; lia. Qed.

Lemma resume_of_le h n c t r :
  resume_of h (Terminates n c) t = Some r -> (t <= n)%N -> (r <= n)%N.
Proof. destruct h; simpl; intros [= <-]; lia. Qed.

Lemma resume_of_lasts h b t r :
  resume_of h b t = Some r -> lasts b t = true -> lasts b r = true.
Proof.
  destruct b as [n c|]; [|reflexivity]. simpl. intros Hr Ht.
  apply N.leb_le. apply N.leb_le in Ht. eapply resume_of_le; eassumption.
Qed.

Lemma resume_of_terminates h n c t : exists r, resume_of h (Terminates n c) t = Some r.
Proof. destruct h; simpl; eauto. Qed.

Lemma lasts_0 b : lasts b 0 = true.
Proof. destruct b; [apply N.leb_le; lia | reflexivity]. Qed.

Lemma not_done_lasts tie_finished n c t :
  done_by tie_finished n t = false -> lasts (Terminates n c) t = true.
Proof.
  unfold done_by. intros H. apply orb_false_iff in H as [H _].
  apply N.ltb_ge in H. apply N.leb_le. exact H.
Qed.

Lemma done_by_lasts tie_finished n t :
  done_by tie_finished n t = true -> (t <= n)%N -> n = t /\ tie_finished = true.
Proof.
  unfold done_by. intros H Hle. apply orb_true_iff in H as [H|H].
  - apply N.ltb_lt in H. lia.
  - apply andb_true_iff in H as [H ->]. apply N.eqb_eq in H. auto.
Qed.

Lemma done_by_before tie_finished n t : (n < t)%N -> done_by tie_finished n t = true.
Proof. intros H. unfold done_by. apply orb_true_iff. left. apply N.ltb_lt. exact H. Qed.

Lemma not_done_by_after tie_finished n t : (t < n)%N -> done_by tie_finished n t = false.
Proof.
  intros H. unfold done_by. apply orb_false_iff. split.
  - apply N.ltb_ge. lia.
  - apply andb_false_iff. left. apply N.eqb_neq. lia.
Qed.

(** ** The first four statements of [wrapper] *)

Section Run.
Variable tie_finished : bool.
Variable hold : workfn -> pyargs -> pykwargs -> N -> option N.
Variables (func : workfn) (args : pyargs) (kwargs : pykwargs).

Lemma wrapper_started timeout w :
  wrapper tie_finished hold timeout func args kwargs w =
  match resume_of (hold func args kwargs 0%N) (fn_call func args kwargs) 0 with
  | None => Hang
  | Some k =>
      (_ ← Thread_join tie_finished hold (thread_in w) timeout;
       alive ← Thread_is_alive tie_finished (thread_in w);
       if (alive : bool) then
         name ← getattr_name func;
         _ ← logger_warning (timeout_message timeout name args kwargs);
         mret (TimedOut, PyNone)
       else
         e ← getitem (S (w_next w)) 0;
         if truthy e then
           e' ← getitem (S (w_next w)) 0;
           raise e'
         else
           v ← getitem (w_next w) 0;
           mret (Completed, v)) (resumed k func args kwargs w)
  end.
Proof.
  unfold wrapper, mbind, M_bind at 1 2 3 4. simpl.
  unfold Thread_start at 1. simpl.
  rewrite (list_lookup_middle (w_threads w) [] _ (length (w_threads w)) eq_refl).
  simpl. unfold resume, call_work. simpl.
  destruct (resume_of (hold func args kwargs 0%N) (fn_call func args kwargs) 0) as [k|];
    [|reflexivity].
  unfold set_threads, set_clock. simpl.
  rewrite insert_app_r_alt by lia. rewrite Nat.sub_diag. simpl.
  reflexivity.
Qed.

Lemma finish_time_started w :
  finish_time (worker_in w func args kwargs) =
  match fn_call func args kwargs with
  | Terminates n _ => Some (w_clock w + Z.of_N n)
  | Diverges => None
  end.
Proof. reflexivity. Qed.

Lemma not_ended_while_lasts r w :
  lasts (fn_call func args kwargs) r = true ->
  ended_before (Z.max (w_clock w) (w_clock w + Z.of_N r))
    (worker_in w func args kwargs) = false.
Proof.
  intros Hl. unfold ended_before. rewrite finish_time_started.
  destruct (fn_call func args kwargs) as [n c|]; [|reflexivity].
  simpl in Hl. apply N.leb_le in Hl. apply Z.ltb_ge. lia.
Qed.

(** The world [r] seconds after the start of a worker that is not over by
    then, written out. *)
Lemma advance_started r w :
  lasts (fn_call func args kwargs) r = true ->
  let now := Z.max (w_clock w) (w_clock w + Z.of_N r) in
  advance_to (w_clock w + Z.of_N r) (started func args kwargs w) =
  {| w_clock := now; w_next := S (S (w_next w));
     w_heap := (reap now (w_threads w) (heap_in w)).2;
     w_threads := (reap now (w_threads w) (heap_in w)).1 ++
                  [worker_in w func args kwargs];
     w_log := w_log w |}.
Proof.
  intros Hl now. unfold advance_to, started. cbn [w_clock w_threads w_heap].
  fold now. rewrite reap_snoc. unfold now at 1. rewrite (not_ended_while_lasts r w Hl).
  destruct (reap now (w_threads w) (heap_in w)) as [ts h]. reflexivity.
Qed.

(** Once the caller runs again, what has passed is passed. *)
Lemma advance_resumed k t w :
  w_clock w + Z.of_N k <= t ->
  advance_to t (resumed k func args kwargs w) = advance_to t (started func args kwargs w).
Proof.
  intros Hle. unfold advance_to, resumed, set_clock. simpl.
  replace (Z.max (w_clock w + Z.of_N k) t) with (Z.max (w_clock w) t) by lia.
  destruct (reap _ _ (heap_in w)) as [ts h]. reflexivity.
Qed.

(** The world after a successful join, written out. *)
Lemma joined_world n c w :
  fn_call func args kwargs = Terminates n c ->
  let now := Z.max (w_clock w) (w_clock w + Z.of_N n) in
  joined n func args kwargs w =
  {| w_clock := now; w_next := S (S (w_next w));
     w_heap := target (closure_in w func args kwargs)
                 (reap now (w_threads w) (heap_in w)).2;
     w_threads := (reap now (w_threads w) (heap_in w)).1 ++
                  [stop (worker_in w func args kwargs)];
     w_log := w_log w |}.
Proof.
  intros Hb now. unfold joined.
  rewrite advance_started by (rewrite Hb; apply N.leb_refl).
  fold now. unfold finish, thread_in. simpl.
  pose proof (reap_length now (w_threads w) (heap_in w)) as Hlen.
  rewrite (list_lookup_middle _ [] (worker_in w func args kwargs) (length (w_threads w)))
    by (symmetry; exact Hlen).
  simpl. unfold set_threads, set_heap. simpl.
  rewrite insert_app_r_alt by lia. rewrite Hlen, Nat.sub_diag. reflexivity.
Qed.

(** The world after a call that gave up, written out. *)
Lemma abandoned_world r timeout name w :
  lasts (fn_call func args kwargs) r = true ->
  let now := Z.max (w_clock w) (w_clock w + Z.of_N r) in
  abandoned r timeout name func args kwargs w =
  {| w_clock := now; w_next := S (S (w_next w));
     w_heap := (reap now (w_threads w) (heap_in w)).2;
     w_threads := (reap now (w_threads w) (heap_in w)).1 ++
                  [worker_in w func args kwargs];
     w_log := w_log w ++
       [{| ev_level := WARNING;
           ev_message := timeout_message timeout name args kwargs |}] |}.
Proof.
  intros Hl now. unfold abandoned, gave_up. rewrite (advance_started r w Hl).
  reflexivity.
Qed.

(** The world after a join that refused to wait, written out. *)
Lemma refused_world k w :
  lasts (fn_call func args kwargs) k = true ->
  let now := Z.max (w_clock w) (w_clock w + Z.of_N k) in
  refused k func args kwargs w =
  {| w_clock := now; w_next := S (S (w_next w));
     w_heap := (reap now (w_threads w) (heap_in w)).2;
     w_threads := (reap now (w_threads w) (heap_in w)).1 ++
                  [worker_in w func args kwargs];
     w_log := w_log w |}.
Proof. intros Hl now. unfold refused. apply (advance_started k w Hl). Qed.

Lemma getitem_cell l w :
  getitem l 0 w =
  match cell l w with Some v => Done v w | None => Throw IndexError w end.
Proof. reflexivity. Qed.

Lemma heap_in_result w : heap_in w !! w_next w = Some [PyNone].
Proof.
  unfold heap_in. rewrite lookup_insert_ne by lia. apply lookup_insert_eq.
Qed.

Lemma heap_in_exception w : heap_in w !! S (w_next w) = Some [PyNone].
Proof. unfold heap_in. apply lookup_insert_eq. Qed.

(** Whenever the worker ends, it stores its result in its own two cells. *)
Lemma worker_stores now n c w :
  world_ok w = true ->
  fn_call func args kwargs = Terminates n c ->
  let h := target (closure_in w func args kwargs) (reap now (w_threads w) (heap_in w)).2 in
  h !! w_next w = Some [stored_result c] /\ h !! S (w_next w) = Some [stored_exception c].
Proof.
  intros Hok Hb h. subst h.
  assert (Hr : (reap now (w_threads w) (heap_in w)).2 !! w_next w = Some [PyNone]).
  { rewrite (reap_heap_other now (w_next w)) by (exact Hok || lia).
    apply heap_in_result. }
  assert (He : (reap now (w_threads w) (heap_in w)).2 !! S (w_next w) = Some [PyNone]).
  { rewrite (reap_heap_other now (w_next w)) by (exact Hok || lia).
    apply heap_in_exception. }
  unfold target, call_work. simpl. rewrite Hb.
  destruct c as [v|e]; simpl.
  - rewrite (setitem_same _ _ _ _ Hr). rewrite setitem_other by lia. auto.
  - destruct (exc_isException e).
    + rewrite setitem_other by lia. rewrite (setitem_same _ _ _ _ He). auto.
    + auto.
Qed.

Lemma joined_cells n c w :
  world_ok w = true ->
  fn_call func args kwargs = Terminates n c ->
  cell (w_next w) (joined n func args kwargs w) = Some (stored_result c) /\
  cell (S (w_next w)) (joined n func args kwargs w) = Some (stored_exception c).
Proof.
  intros Hok Hb. rewrite (joined_world n c w Hb). unfold cell. cbn [w_heap].
  destruct (worker_stores (Z.max (w_clock w) (w_clock w + Z.of_N n)) n c w Hok Hb)
    as [Hr He].
  cbn zeta in Hr, He. rewrite Hr, He. split; reflexivity.
Qed.

(** While the worker is not over, its cells hold [None]. *)
Lemma abandoned_cells r timeout name w :
  world_ok w = true ->
  lasts (fn_call func args kwargs) r = true ->
  cell (w_next w) (abandoned r timeout name func args kwargs w) = Some PyNone /\
  cell (S (w_next w)) (abandoned r timeout name func args kwargs w) = Some PyNone.
Proof.
  intros Hok Hl. rewrite (abandoned_world r timeout name w Hl). unfold cell. cbn [w_heap].
  rewrite !(reap_heap_other _ (w_next w)) by (exact Hok || lia).
  rewrite heap_in_result, heap_in_exception. split; reflexivity.
Qed.

End Run.

(** ** The join and what follows it *)

Section Join.
Variable tie_finished : bool.
Variable hold : workfn -> pyargs -> pykwargs -> N -> option N.
Variables (func : workfn) (args : pyargs) (kwargs : pykwargs).

Lemma resumed_lookup k w :
  w_threads (resumed k func args kwargs w) !! thread_in w =
  Some (worker_in w func args kwargs).
Proof. unfold resumed, started, thread_in. simpl. by apply list_lookup_middle. Qed.

Lemma ended_by_worker now t w :
  now = w_clock w + Z.of_N t ->
  ended_by tie_finished now (worker_in w func args kwargs) =
  match fn_call func args kwargs with
  | Terminates n _ => done_by tie_finished n t
  | Diverges => false
  end.
Proof.
  intros ->. unfold ended_by. rewrite finish_time_started.
  destruct (fn_call func args kwargs) as [n c|]; [|reflexivity].
  unfold done_by. f_equal; [|f_equal].
  - destruct (Z.ltb_spec (w_clock w + Z.of_N n) (w_clock w + Z.of_N t));
      destruct (N.ltb_spec n t); try reflexivity; lia.
  - destruct (Z.eqb_spec (w_clock w + Z.of_N n) (w_clock w + Z.of_N t));
      destruct (N.eqb_spec n t); try reflexivity; lia.
Qed.

Lemma deadline_after k d w :
  w_clock w + Z.of_N k + Z.max d 0 = w_clock w + Z.of_N (k + Z.to_N d).
Proof. lia. Qed.

Lemma deadline_since k d w :
  Z.to_N (w_clock w + Z.of_N k + Z.max d 0 - w_clock w) = (k + Z.to_N d)%N.
Proof. lia. Qed.

(** A join that sees the work end leaves the caller in the [joined] world. *)
Lemma join_in_time n c k d w :
  fn_call func args kwargs = Terminates n c ->
  (k <= n)%N ->
  d <= TIMEOUT_MAX ->
  done_by tie_finished n (k + Z.to_N d) = true ->
  Thread_join tie_finished hold (thread_in w) (Some d) (resumed k func args kwargs w) =
  Done tt (joined n func args kwargs w).
Proof.
  intros Hb Hk Hd Hin. unfold Thread_join. rewrite resumed_lookup.
  cbn [th_state worker_in].
  assert (Hacc : (TIMEOUT_MAX <? d) = false) by (apply Z.ltb_ge; exact Hd).
  rewrite Hacc.
  change {| th_target := closure_in w func args kwargs; th_state := Running (w_clock w) |}
    with (worker_in w func args kwargs).
  rewrite finish_time_started, Hb.
  cbn [w_clock resumed set_clock].
  rewrite (ended_by_worker _ (k + Z.to_N d) w (deadline_after k d w)), Hb, Hin.
  change (set_clock (w_clock w + Z.of_N k) (started func args kwargs w))
    with (resumed k func args kwargs w).
  rewrite advance_resumed by lia. reflexivity.
Qed.

Lemma join_unbounded n c k w :
  fn_call func args kwargs = Terminates n c ->
  (k <= n)%N ->
  Thread_join tie_finished hold (thread_in w) None (resumed k func args kwargs w) =
  Done tt (joined n func args kwargs w).
Proof.
  intros Hb Hk. unfold Thread_join. rewrite resumed_lookup.
  cbn [th_state worker_in].
  change {| th_target := closure_in w func args kwargs; th_state := Running (w_clock w) |}
    with (worker_in w func args kwargs).
  rewrite finish_time_started, Hb.
  rewrite advance_resumed by lia. reflexivity.
Qed.

(** A join whose wait is over before the work is seen to end lets the
    caller go on when the worker lets it run, if ever. *)
Lemma join_gives_up k d w :
  d <= TIMEOUT_MAX ->
  match fn_call func args kwargs with
  | Terminates n _ => done_by tie_finished n (k + Z.to_N d) = false
  | Diverges => True
  end ->
  Thread_join tie_finished hold (thread_in w) (Some d) (resumed k func args kwargs w) =
  match resume_of (hold func args kwargs (k + Z.to_N d)%N) (fn_call func args kwargs)
          (k + Z.to_N d) with
  | Some r => Done tt (advance_to (w_clock w + Z.of_N r) (started func args kwargs w))
  | None => Hang
  end.
Proof.
  intros Hd Hnot. unfold Thread_join. rewrite resumed_lookup.
  cbn [th_state worker_in].
  assert (Hacc : (TIMEOUT_MAX <? d) = false) by (apply Z.ltb_ge; exact Hd).
  rewrite Hacc.
  change {| th_target := closure_in w func args kwargs; th_state := Running (w_clock w) |}
    with (worker_in w func args kwargs).
  rewrite finish_time_started.
  cbn [w_clock resumed set_clock]. cbv zeta.
  rewrite (ended_by_worker _ (k + Z.to_N d) w (deadline_after k d w)).
  rewrite deadline_since.
  unfold resume, call_work. cbn [th_target worker_in closure_in cl_func cl_args cl_kwargs].
  change (set_clock (w_clock w + Z.of_N k) (started func args kwargs w))
    with (resumed k func args kwargs w).
  destruct (fn_call func args kwargs) as [n c|] eqn:Hb.
  - rewrite Hnot.
    destruct (resume_of _ (Terminates n c) _) as [r|] eqn:Hr; [|reflexivity].
    apply resume_of_ge in Hr. rewrite advance_resumed by lia. reflexivity.
  - destruct (resume_of _ Diverges _) as [r|] eqn:Hr; [|reflexivity].
    apply resume_of_ge in Hr. rewrite advance_resumed by lia. reflexivity.
Qed.

(** A join asked to wait too long raises at once. *)
Lemma join_refuses k d w :
  TIMEOUT_MAX < d ->
  Thread_join tie_finished hold (thread_in w) (Some d) (resumed k func args kwargs w) =
  Throw (OverflowError "timestamp too large to convert to C _PyTime_t")
    (refused k func args kwargs w).
Proof.
  intros Hd. unfold Thread_join. rewrite resumed_lookup.
  cbn [th_state worker_in].
  assert (Hacc : (TIMEOUT_MAX <? d) = true) by (apply Z.ltb_lt; exact Hd).
  rewrite Hacc. cbn [w_clock resumed set_clock].
  change (set_clock (w_clock w + Z.of_N k) (started func args kwargs w))
    with (resumed k func args kwargs w).
  rewrite advance_resumed by lia. reflexivity.
Qed.

Lemma join_forever k w :
  fn_call func args kwargs = Diverges ->
  Thread_join tie_finished hold (thread_in w) None (resumed k func args kwargs w) = Hang.
Proof.
  intros Hb. unfold Thread_join. rewrite resumed_lookup.
  cbn [th_state worker_in].
  change {| th_target := closure_in w func args kwargs; th_state := Running (w_clock w) |}
    with (worker_in w func args kwargs).
  rewrite finish_time_started, Hb. reflexivity.
Qed.

Lemma joined_state n c w :
  fn_call func args kwargs = Terminates n c ->
  state_of (thread_in w) (joined n func args kwargs w) = Some Stopped.
Proof.
  intros Hb. rewrite (joined_world func args kwargs n c w Hb). unfold state_of, thread_in.
  cbn [w_threads].
  rewrite (list_lookup_middle _ [] _ (length (w_threads w)));
    [reflexivity | symmetry; apply reap_length].
Qed.

Lemma advanced_lookup r w :
  lasts (fn_call func args kwargs) r = true ->
  w_threads (advance_to (w_clock w + Z.of_N r) (started func args kwargs w)) !! thread_in w =
  Some (worker_in w func args kwargs).
Proof.
  intros Hl. rewrite (advance_started func args kwargs r w Hl). cbn [w_threads].
  apply list_lookup_middle. unfold thread_in. rewrite reap_length. reflexivity.
Qed.

Lemma advanced_clock r w :
  w_clock (advance_to (w_clock w + Z.of_N r) (started func args kwargs w)) =
  w_clock w + Z.of_N r.
Proof.
  unfold advance_to. destruct (reap _ _ _). simpl. lia.
Qed.


Lemma refused_state k w :
  lasts (fn_call func args kwargs) k = true ->
  state_of (thread_in w) (refused k func args kwargs w) = Some (Running (w_clock w)).
Proof.
  intros Hl. unfold state_of, refused. rewrite (advanced_lookup k w Hl). reflexivity.
Qed.

(** A thread that has been joined is not alive. *)
Lemma not_alive_joined n c w :
  fn_call func args kwargs = Terminates n c ->
  Thread_is_alive tie_finished (thread_in w) (joined n func args kwargs w) =
  Done false (joined n func args kwargs w).
Proof.
  intros Hb. pose proof (joined_state n c w Hb) as Hst.
  unfold Thread_is_alive. unfold state_of in Hst.
  destruct (w_threads (joined n func args kwargs w) !! thread_in w) as [[cl st]|];
    [|reflexivity].
  simpl in Hst. injection Hst as ->. reflexivity.
Qed.

(** When the caller runs again after giving up, the thread is alive unless
    the work is seen to end at that very moment. *)
Lemma alive_after_wait r w :
  lasts (fn_call func args kwargs) r = true ->
  Thread_is_alive tie_finished (thread_in w)
    (advance_to (w_clock w + Z.of_N r) (started func args kwargs w)) =
  match fn_call func args kwargs with
  | Terminates n _ =>
      if done_by tie_finished n r
      then Done false (joined n func args kwargs w)
      else Done true (advance_to (w_clock w + Z.of_N r) (started func args kwargs w))
  | Diverges => Done true (advance_to (w_clock w + Z.of_N r) (started func args kwargs w))
  end.
Proof.
  intros Hl. unfold Thread_is_alive. rewrite (advanced_lookup r w Hl).
  cbn [is_running worker_in th_state].
  change {| th_target := closure_in w func args kwargs; th_state := Running (w_clock w) |}
    with (worker_in w func args kwargs).
  rewrite (ended_by_worker _ r w (advanced_clock r w)).
  destruct (fn_call func args kwargs) as [n c|] eqn:Hb; [|reflexivity].
  destruct (done_by tie_finished n r) eqn:Hdone; [|reflexivity].
  simpl in Hl. apply N.leb_le in Hl.
  destruct (done_by_lasts tie_finished n r Hdone Hl) as [-> _]. reflexivity.
Qed.

(** The statements after [is_alive] has said no. *)
Lemma results_read n c w :
  world_ok w = true ->
  fn_call func args kwargs = Terminates n c ->
  (e ← getitem (S (w_next w)) 0;
   if truthy e then
     e' ← getitem (S (w_next w)) 0;
     raise e'
   else
     v ← getitem (w_next w) 0;
     mret (Completed, v)) (joined n func args kwargs w) =
  run_of (Ends n c) None func args kwargs w.
Proof.
  intros Hok Hb.
  destruct (joined_cells func args kwargs n c w Hok Hb) as [Hr He].
  unfold mbind, M_bind. rewrite getitem_cell, He.
  destruct c as [v|e]; cbn [stored_result stored_exception truthy run_of] in *.
  - rewrite getitem_cell, Hr. reflexivity.
  - unfold captured. destruct (exc_isException e); cbn [truthy andb].
    + destruct (exc_truth e); rewrite getitem_cell, ?He, ?Hr; reflexivity.
    + rewrite getitem_cell, Hr. reflexivity.
Qed.

(** *** The ways a call can go *)

Lemma wrapper_never_resumes timeout w :
  resume_of (hold func args kwargs 0%N) (fn_call func args kwargs) 0 = None ->
  wrapper tie_finished hold timeout func args kwargs w = Hang.
Proof. intros Hk. rewrite wrapper_started, Hk. reflexivity. Qed.

Lemma wrapper_refused k d w :
  resume_of (hold func args kwargs 0%N) (fn_call func args kwargs) 0 = Some k ->
  TIMEOUT_MAX < d ->
  wrapper tie_finished hold (Some d) func args kwargs w =
  Throw (OverflowError "timestamp too large to convert to C _PyTime_t")
    (refused k func args kwargs w).
Proof.
  intros Hk Hd. rewrite wrapper_started, Hk. unfold mbind at 1, M_bind at 1.
  rewrite (join_refuses k d w Hd). reflexivity.
Qed.

Lemma wrapper_joined timeout n c k w :
  world_ok w = true ->
  resume_of (hold func args kwargs 0%N) (fn_call func args kwargs) 0 = Some k ->
  fn_call func args kwargs = Terminates n c ->
  match timeout with
  | Some d => d <= TIMEOUT_MAX /\ done_by tie_finished n (k + Z.to_N d) = true
  | None => True
  end ->
  wrapper tie_finished hold timeout func args kwargs w =
  run_of (Ends n c) None func args kwargs w.
Proof.
  intros Hok Hk Hb Hin. rewrite wrapper_started, Hk.
  assert (Hle : (k <= n)%N).
  { rewrite Hb in Hk. eapply resume_of_le; [exact Hk | lia]. }
  unfold mbind at 1, M_bind at 1.
  assert (Hjoin : Thread_join tie_finished hold (thread_in w) timeout
                    (resumed k func args kwargs w) = Done tt (joined n func args kwargs w)).
  { destruct timeout as [d|].
    - destruct Hin as [Hd Hin]. eapply join_in_time; eassumption.
    - eapply join_unbounded; eassumption. }
  rewrite Hjoin. unfold mbind at 1, M_bind at 1.
  rewrite (not_alive_joined n c w Hb).
  apply results_read; assumption.
Qed.

(** The wait is over, and the caller runs again [r] seconds after the work
    began. *)
Lemma wrapper_waited k d r w :
  world_ok w = true ->
  resume_of (hold func args kwargs 0%N) (fn_call func args kwargs) 0 = Some k ->
  d <= TIMEOUT_MAX ->
  match fn_call func args kwargs with
  | Terminates n _ => done_by tie_finished n (k + Z.to_N d) = false
  | Diverges => True
  end ->
  resume_of (hold func args kwargs (k + Z.to_N d)%N) (fn_call func args kwargs)
    (k + Z.to_N d) = Some r ->
  wrapper tie_finished hold (Some d) func args kwargs w =
  match fn_call func args kwargs with
  | Terminates n c =>
      if done_by tie_finished n r then run_of (Ends n c) None func args kwargs w
      else run_of (GivesUp r) (Some d) func args kwargs w
  | Diverges => run_of (GivesUp r) (Some d) func args kwargs w
  end.
Proof.
  intros Hok Hk Hd Hnot Hr. rewrite wrapper_started, Hk.
  unfold mbind at 1, M_bind at 1.
  rewrite (join_gives_up k d w Hd Hnot), Hr.
  assert (Hl : lasts (fn_call func args kwargs) r = true).
  { apply (resume_of_lasts _ _ _ _ Hr).
    destruct (fn_call func args kwargs) as [n c|]; [|reflexivity].
    eapply not_done_lasts. exact Hnot. }
  unfold mbind at 1, M_bind at 1.
  rewrite (alive_after_wait r w Hl).
  assert (Hwarn :
    (name ← getattr_name func;
     _ ← logger_warning (timeout_message (Some d) name args kwargs);
     mret (TimedOut, PyNone))
      (advance_to (w_clock w + Z.of_N r) (started func args kwargs w)) =
    run_of (GivesUp r) (Some d) func args kwargs w).
  { unfold mbind, M_bind, getattr_name. cbn [run_of].
    destruct (fn_name func); reflexivity. }
  destruct (fn_call func args kwargs) as [n c|] eqn:Hb.
  - destruct (done_by tie_finished n r).
    + apply results_read; assumption.
    + exact Hwarn.
  - exact Hwarn.
Qed.

Lemma wrapper_waits_forever k d w :
  resume_of (hold func args kwargs 0%N) (fn_call func args kwargs) 0 = Some k ->
  d <= TIMEOUT_MAX ->
  match fn_call func args kwargs with
  | Terminates n _ => done_by tie_finished n (k + Z.to_N d) = false
  | Diverges => True
  end ->
  resume_of (hold func args kwargs (k + Z.to_N d)%N) (fn_call func args kwargs)
    (k + Z.to_N d) = None ->
  wrapper tie_finished hold (Some d) func args kwargs w = Hang.
Proof.
  intros Hk Hd Hnot Hr. rewrite wrapper_started, Hk.
  unfold mbind at 1, M_bind at 1.
  rewrite (join_gives_up k d w Hd Hnot), Hr. reflexivity.
Qed.

Lemma wrapper_hangs k w :
  resume_of (hold func args kwargs 0%N) (fn_call func args kwargs) 0 = Some k ->
  fn_call func args kwargs = Diverges ->
  wrapper tie_finished hold None func args kwargs w = Hang.
Proof.
  intros Hk Hb. rewrite wrapper_started, Hk. unfold mbind at 1, M_bind at 1.
  rewrite (join_forever k w Hb). reflexivity.
Qed.

(** What a call does is told by its fate. *)
Lemma wrapper_run timeout w :
  world_ok w = true ->
  wrapper tie_finished hold timeout func args kwargs w =
  run_of (fate_of tie_finished (hold func args kwargs) timeout (fn_call func args kwargs))
    timeout func args kwargs w.
Proof.
  intros Hok. unfold fate_of.
  destruct (resume_of (hold func args kwargs 0%N) (fn_call func args kwargs) 0)
    as [k|] eqn:Hk; [|apply wrapper_never_resumes; exact Hk].
  destruct timeout as [d|].
  - destruct (Z.ltb_spec TIMEOUT_MAX d) as [Hd|Hd];
      [apply (wrapper_refused k d w Hk Hd)|].
    cbv zeta.
    destruct (fn_call func args kwargs) as [n c|] eqn:Hb.
    + destruct (done_by tie_finished n (k + Z.to_N d)) eqn:Hin.
      * rewrite <- Hb in Hk.
        rewrite (wrapper_joined (Some d) n c k w Hok Hk Hb (conj Hd Hin)).
        destruct c; reflexivity.
      * destruct (resume_of (hold func args kwargs (k + Z.to_N d)%N) (Terminates n c)
                    (k + Z.to_N d)) as [r|] eqn:Hr.
        -- rewrite <- Hb in Hk, Hr.
           rewrite (wrapper_waited k d r w Hok Hk Hd); [| rewrite Hb; exact Hin | exact Hr].
           rewrite Hb. destruct (done_by tie_finished n r); [destruct c|]; reflexivity.
        -- rewrite <- Hb in Hk, Hr.
           apply (wrapper_waits_forever k d w Hk Hd); [rewrite Hb; exact Hin | exact Hr].
    + destruct (resume_of (hold func args kwargs (k + Z.to_N d)%N) Diverges
                  (k + Z.to_N d)) as [r|] eqn:Hr.
      * rewrite <- Hb in Hk, Hr.
        rewrite (wrapper_waited k d r w Hok Hk Hd); [| rewrite Hb; exact I | exact Hr].
        rewrite Hb. reflexivity.
      * rewrite <- Hb in Hk, Hr.
        apply (wrapper_waits_forever k d w Hk Hd); [rewrite Hb; exact I | exact Hr].
  - destruct (fn_call func args kwargs) as [n c|] eqn:Hb.
    + rewrite <- Hb in Hk.
      rewrite (wrapper_joined None n c k w Hok Hk Hb I). destruct c; reflexivity.
    + rewrite <- Hb in Hk. apply (wrapper_hangs k w Hk Hb).
Qed.

End Join.

(** ** The fate of a call *)

Section Fate.
Variable tie_finished : bool.
Variable hold : N -> option N.

Lemma fate_ends timeout b n c :
  fate_of tie_finished hold timeout b = Ends n c -> b = Terminates n c.
Proof.
  unfold fate_of. destruct (resume_of (hold 0%N) b 0) as [k|]; [|discriminate].
  destruct timeout as [d|].
  - destruct (TIMEOUT_MAX <? d); [discriminate|]. cbv zeta.
    destruct b as [n' c'|].
    + destruct (done_by tie_finished n' (k + Z.to_N d)); [congruence|].
      destruct (resume_of _ _ _) as [r|]; [|discriminate].
      destruct (done_by tie_finished n' r); congruence.
    + destruct (resume_of _ _ _); discriminate.
  - destruct b; congruence.
Qed.


Lemma fate_gives_up timeout b r :
  fate_of tie_finished hold timeout b = GivesUp r ->
  exists d, timeout = Some d /\ d <= TIMEOUT_MAX /\ gives_up_at hold b d = Some r /\
    lasts b r = true /\
    match b with
    | Terminates n _ => done_by tie_finished n r = false
    | Diverges => True
    end.
Proof.
  unfold fate_of, gives_up_at.
  destruct (resume_of (hold 0%N) b 0) as [k|]; [|discriminate].
  destruct timeout as [d|]; [|destruct b; discriminate].
  destruct (Z.ltb_spec TIMEOUT_MAX d) as [Hd|Hd]; [discriminate|]. cbv zeta.
  intros H. exists d. split; [reflexivity|]. split; [exact Hd|].
  destruct b as [n c|].
  - destruct (done_by tie_finished n (k + Z.to_N d)) eqn:Hin; [discriminate|].
    destruct (resume_of _ _ _) as [r'|] eqn:Hr; [|discriminate].
    destruct (done_by tie_finished n r') eqn:Hdone; [discriminate|].
    injection H as ->. split; [reflexivity|]. split; [|exact Hdone].
    eapply not_done_lasts. exact Hdone.
  - destruct (resume_of _ _ _) as [r'|] eqn:Hr; [|discriminate].
    injection H as ->. auto.
Qed.

Lemma fate_refused timeout b k :
  fate_of tie_finished hold timeout b = Refused k ->
  exists d, timeout = Some d /\ TIMEOUT_MAX < d /\
    resume_of (hold 0%N) b 0 = Some k /\ lasts b k = true.
Proof.
  unfold fate_of.
  destruct (resume_of (hold 0%N) b 0) as [k'|] eqn:Hk; [|discriminate].
  destruct timeout as [d|]; [|destruct b; discriminate].
  destruct (Z.ltb_spec TIMEOUT_MAX d) as [Hd|Hd].
  - intros [= ->]. exists d. repeat split; [exact Hd|].
    apply (resume_of_lasts _ _ _ _ Hk), lasts_0.
  - cbv zeta. clear Hk. destruct b as [n c|].
    + destruct (done_by tie_finished n (k' + Z.to_N d)); [discriminate|].
      destruct (resume_of _ _ _) as [r|]; [|discriminate].
      destruct (done_by tie_finished n r); discriminate.
    + destruct (resume_of _ _ _); discriminate.
Qed.

(** Work that ends before a deadline [join] accepts is seen to end. *)
Lemma fate_in_time d n c :
  d <= TIMEOUT_MAX ->
  Z.of_N n < d ->
  fate_of tie_finished hold (Some d) (Terminates n c) = Ends n c.
Proof.
  intros Hd Hlt. unfold fate_of.
  destruct (resume_of_terminates (hold 0%N) n c 0) as [k ->].
  assert (Hacc : (TIMEOUT_MAX <? d) = false) by (apply Z.ltb_ge; exact Hd).
  rewrite Hacc. cbv zeta. rewrite done_by_before by lia. reflexivity.
Qed.

(** Work that outlasts the wait makes the caller give up. *)
Lemma fate_outlasts d b :
  d <= TIMEOUT_MAX ->
  outlasts hold b d ->
  exists r, gives_up_at hold b d = Some r /\
    fate_of tie_finished hold (Some d) b = GivesUp r /\ lasts b r = true.
Proof.
  intros Hd. unfold outlasts, fate_of, gives_up_at.
  destruct (resume_of (hold 0%N) b 0) as [k|]; [|intros []].
  assert (Hacc : (TIMEOUT_MAX <? d) = false) by (apply Z.ltb_ge; exact Hd).
  rewrite Hacc. cbv zeta.
  destruct (resume_of (hold (k + Z.to_N d)%N) b (k + Z.to_N d)) as [r|] eqn:Hr;
    [|intros []].
  intros Hlast. exists r. split; [reflexivity|].
  destruct b as [n c|].
  - apply resume_of_ge in Hr.
    rewrite not_done_by_after by lia. rewrite not_done_by_after by exact Hlast.
    split; [reflexivity|]. apply N.leb_le. lia.
  - split; reflexivity.
Qed.

Lemma fate_unbounded n c : fate_of tie_finished hold None (Terminates n c) = Ends n c.
Proof.
  unfold fate_of. destruct (resume_of_terminates (hold 0%N) n c 0) as [k ->].
  reflexivity.
Qed.

Lemma fate_unbounded_diverges : fate_of tie_finished hold None Diverges = Never.
Proof. unfold fate_of. destruct (resume_of _ _ _); reflexivity. Qed.

(** A deadline above [TIMEOUT_MAX] is refused when the caller first runs
    again, which it does when the work ends. *)
Lemma fate_too_long d n c :
  TIMEOUT_MAX < d ->
  exists k, resume_of (hold 0%N) (Terminates n c) 0 = Some k /\
    fate_of tie_finished hold (Some d) (Terminates n c) = Refused k /\ (k <= n)%N.
Proof.
  intros Hd. unfold fate_of.
  destruct (resume_of_terminates (hold 0%N) n c 0) as [k Hk]. rewrite Hk.
  assert (Hacc : (TIMEOUT_MAX <? d) = true) by (apply Z.ltb_lt; exact Hd).
  rewrite Hacc. exists k. repeat split. eapply resume_of_le; [exact Hk | lia].
Qed.

End Fate.

(** ** The invariant is kept *)

Lemma init_world_ok : world_ok init_world = true.
Proof. reflexivity. Qed.

Lemma advance_to_ok t w : world_ok w = true -> world_ok (advance_to t w) = true.
Proof.
  intros Hok. unfold world_ok, advance_to.
  pose proof (reap_ok (Z.max (w_clock w) t) (w_next w) (w_threads w) (w_heap w) Hok) as H.
  destruct (reap _ (w_threads w) (w_heap w)) as [ts h]. exact H.
Qed.

Lemma elapse_ok dt w : world_ok w = true -> world_ok (elapse dt w) = true.
Proof. apply advance_to_ok. Qed.

Lemma forallb_snoc {A} (f : A -> bool) xs x :
  forallb f (xs ++ [x]) = forallb f xs && f x.
Proof. rewrite forallb_app. simpl. rewrite andb_true_r. reflexivity. Qed.

Lemma forallb_thread_ok_mono next next' ts :
  (next <= next')%nat ->
  forallb (thread_ok next) ts = true -> forallb (thread_ok next') ts = true.
Proof.
  intros Hle. rewrite !forallb_forall. intros H th Hin.
  eapply thread_ok_mono; [exact Hle | exact (H th Hin)].
Qed.

Section Invariant.
Variable tie_finished : bool.
Variable hold : workfn -> pyargs -> pykwargs -> N -> option N.
Variables (func : workfn) (args : pyargs) (kwargs : pykwargs).

Lemma worker_ok w : thread_ok (S (S (w_next w))) (worker_in w func args kwargs) = true.
Proof.
  unfold thread_ok. simpl. rewrite andb_true_iff. split; apply Nat.ltb_lt; lia.
Qed.

Lemma joined_ok n c w :
  world_ok w = true ->
  fn_call func args kwargs = Terminates n c ->
  world_ok (joined n func args kwargs w) = true.
Proof.
  intros Hok Hb. rewrite (joined_world func args kwargs n c w Hb).
  unfold world_ok. cbn [w_next w_threads].
  rewrite forallb_snoc, thread_ok_stop, worker_ok, andb_true_r.
  apply reap_ok. eapply forallb_thread_ok_mono; [|exact Hok]. lia.
Qed.

Lemma advanced_ok r w :
  world_ok w = true ->
  lasts (fn_call func args kwargs) r = true ->
  world_ok (advance_to (w_clock w + Z.of_N r) (started func args kwargs w)) = true.
Proof.
  intros Hok Hl. rewrite (advance_started func args kwargs r w Hl).
  unfold world_ok. cbn [w_next w_threads].
  rewrite forallb_snoc, worker_ok, andb_true_r.
  apply reap_ok. eapply forallb_thread_ok_mono; [|exact Hok]. lia.
Qed.

Lemma abandoned_ok r timeout name w :
  world_ok w = true ->
  lasts (fn_call func args kwargs) r = true ->
  world_ok (abandoned r timeout name func args kwargs w) = true.
Proof. intros Hok Hl. exact (advanced_ok r w Hok Hl). Qed.

Lemma gave_up_ok r w :
  world_ok w = true ->
  lasts (fn_call func args kwargs) r = true ->
  world_ok (gave_up r func args kwargs w) = true.
Proof. intros Hok Hl. exact (advanced_ok r w Hok Hl). Qed.

Lemma refused_ok k w :
  world_ok w = true ->
  lasts (fn_call func args kwargs) k = true ->
  world_ok (refused k func args kwargs w) = true.
Proof. intros Hok Hl. exact (advanced_ok k w Hok Hl). Qed.

(** The world a call ends in, by its fate. *)
Lemma run_of_world f timeout w w' :
  world_of (run_of f timeout func args kwargs w) = Some w' ->
  match f with
  | Ends n _ => w' = joined n func args kwargs w
  | GivesUp r =>
      match fn_name func with
      | Some name => w' = abandoned r timeout name func args kwargs w
      | None => w' = gave_up r func args kwargs w
      end
  | Refused k => w' = refused k func args kwargs w
  | Never => False
  end.
Proof.
  destruct f as [n [v|e]|r|k|]; simpl;
    [|destruct (captured e)|destruct (fn_name func)| |]; simpl; congruence.
Qed.

Lemma wrapper_ok timeout w w' :
  world_ok w = true ->
  world_of (wrapper tie_finished hold timeout func args kwargs w) = Some w' ->
  world_ok w' = true.
Proof.
  intros Hok Hw. rewrite (wrapper_run tie_finished hold func args kwargs timeout w Hok) in Hw.
  apply run_of_world in Hw.
  destruct (fate_of _ _ _ _) as [n c|r|k|] eqn:Hf; [subst w'| |subst w'|destruct Hw].
  - apply fate_ends in Hf. eapply joined_ok; eassumption.
  - apply fate_gives_up in Hf as (d & _ & _ & _ & Hl & _).
    destruct (fn_name func); subst w'; [apply abandoned_ok | apply gave_up_ok]; assumption.
  - apply fate_refused in Hf as (d & _ & _ & _ & Hl). apply refused_ok; assumption.
Qed.

End Invariant.

(** The invariant holds in every world a program gets to. *)
Lemma reachable_ok tie_finished hold w : reachable tie_finished hold w -> world_ok w = true.
Proof.
  induction 1 as [|dt w _ IH|timeout func args kwargs w w' _ IH Hw].
  - apply init_world_ok.
  - apply elapse_ok, IH.
  - eapply wrapper_ok; eassumption.
Qed.

(** ** What a call leaves alone *)

Lemma advance_to_log t w : w_log (advance_to t w) = w_log w.
Proof.
  unfold advance_to. destruct (reap _ (w_threads w) (w_heap w)). reflexivity.
Qed.

Lemma advance_to_clock t w : w_clock (advance_to t w) = Z.max (w_clock w) t.
Proof.
  unfold advance_to. destruct (reap _ (w_threads w) (w_heap w)). reflexivity.
Qed.

Lemma advance_to_next t w : w_next (advance_to t w) = w_next w.
Proof.
  unfold advance_to. destruct (reap _ (w_threads w) (w_heap w)). reflexivity.
Qed.

Lemma advance_to_threads t w :
  w_threads (advance_to t w) = (reap (Z.max (w_clock w) t) (w_threads w) (w_heap w)).1.
Proof.
  unfold advance_to. destruct (reap _ (w_threads w) (w_heap w)). reflexivity.
Qed.

Lemma advance_to_heap t w :
  w_heap (advance_to t w) = (reap (Z.max (w_clock w) t) (w_threads w) (w_heap w)).2.
Proof.
  unfold advance_to. destruct (reap _ (w_threads w) (w_heap w)). reflexivity.
Qed.

Lemma reap_threads_indep now ts h1 h2 : (reap now ts h1).1 = (reap now ts h2).1.
Proof.
  induction ts as [|th ts IH]; simpl; [reflexivity|].
  destruct (reap now ts h1) as [ts1 h1'], (reap now ts h2) as [ts2 h2'].
  simpl in IH. subst ts2. destruct (ended_before now th); reflexivity.
Qed.

Lemma setitem_congr l i v (h1 h2 : gmap loc (list pyval)) (k : loc) :
  h1 !! k = h2 !! k -> setitem l i v h1 !! k = setitem l i v h2 !! k.
Proof.
  intros H. unfold setitem. rewrite !lookup_alter.
  destruct (decide (l = k)) as [->|]; [rewrite H; reflexivity | exact H].
Qed.

Lemma target_congr c (h1 h2 : gmap loc (list pyval)) (k : loc) :
  h1 !! k = h2 !! k -> target c h1 !! k = target c h2 !! k.
Proof.
  intros H. unfold target.
  destruct (call_work c) as [n [v|e]|]; [ | destruct (exc_isException e) | ];
    try exact H; apply setitem_congr; exact H.
Qed.

Lemma reap_congr now ts (h1 h2 : gmap loc (list pyval)) (k : loc) :
  h1 !! k = h2 !! k -> (reap now ts h1).2 !! k = (reap now ts h2).2 !! k.
Proof.
  intros H. induction ts as [|th ts IH]; simpl; [exact H|].
  destruct (reap now ts h1) as [ts1 h1'], (reap now ts h2) as [ts2 h2'].
  simpl in IH. destruct (ended_before now th); simpl; [|exact IH].
  apply target_congr. exact IH.
Qed.

Lemma heap_in_old w (l : loc) : (l < w_next w)%nat -> heap_in w !! l = w_heap w !! l.
Proof.
  intros Hl. unfold heap_in. rewrite !lookup_insert_ne by lia. reflexivity.
Qed.

Section Frame.
Variables (func : workfn) (args : pyargs) (kwargs : pykwargs).

Lemma joined_untouched n c w :
  fn_call func args kwargs = Terminates n c ->
  untouched w (joined n func args kwargs w).
Proof.
  intros Hb. rewrite (joined_world func args kwargs n c w Hb).
  cbn zeta. set (now := Z.max _ _). unfold untouched. cbn [w_heap w_threads w_clock].
  rewrite advance_to_heap, advance_to_threads.
  replace (Z.max (w_clock w) now) with now by (subst now; lia).
  split.
  - intros l Hl. rewrite target_other by (simpl; lia).
    apply reap_congr, heap_in_old, Hl.
  - intros tid Htid. rewrite lookup_app_l by (rewrite reap_length; exact Htid).
    rewrite (reap_threads_indep now _ (heap_in w) (w_heap w)). reflexivity.
Qed.

Lemma advanced_untouched r w :
  lasts (fn_call func args kwargs) r = true ->
  untouched w (advance_to (w_clock w + Z.of_N r) (started func args kwargs w)).
Proof.
  intros Hl. rewrite (advance_started func args kwargs r w Hl).
  cbn zeta. set (now := Z.max _ _). unfold untouched. cbn [w_heap w_threads w_clock].
  rewrite advance_to_heap, advance_to_threads.
  replace (Z.max (w_clock w) now) with now by (subst now; lia).
  split.
  - intros l Hl'. apply reap_congr, heap_in_old, Hl'.
  - intros tid Htid. rewrite lookup_app_l by (rewrite reap_length; exact Htid).
    rewrite (reap_threads_indep now _ (heap_in w) (w_heap w)). reflexivity.
Qed.

Lemma abandoned_untouched r timeout name w :
  lasts (fn_call func args kwargs) r = true ->
  untouched w (abandoned r timeout name func args kwargs w).
Proof. intros Hl. exact (advanced_untouched r w Hl). Qed.

Lemma gave_up_untouched r w :
  lasts (fn_call func args kwargs) r = true ->
  untouched w (gave_up r func args kwargs w).
Proof. intros Hl. exact (advanced_untouched r w Hl). Qed.

Lemma refused_untouched k w :
  lasts (fn_call func args kwargs) k = true ->
  untouched w (refused k func args kwargs w).
Proof. intros Hl. exact (advanced_untouched k w Hl). Qed.

End Frame.

(** ** The worker after the caller has given up *)

Section Abandoned.
Variables (func : workfn) (args : pyargs) (kwargs : pykwargs).


Lemma abandoned_log r timeout name w :
  w_log (abandoned r timeout name func args kwargs w) =
  w_log w ++ [timeout_event timeout name args kwargs].
Proof.
  unfold abandoned, gave_up. cbn [w_log]. rewrite advance_to_log. reflexivity.
Qed.

Lemma gave_up_log r w : w_log (gave_up r func args kwargs w) = w_log w.
Proof. unfold gave_up. rewrite advance_to_log. reflexivity. Qed.

Lemma refused_clock k w :
  w_clock (refused k func args kwargs w) = w_clock w + Z.of_N k.
Proof. apply advanced_clock. Qed.

Lemma refused_log k w : w_log (refused k func args kwargs w) = w_log w.
Proof. unfold refused. rewrite advance_to_log. reflexivity. Qed.



End Abandoned.

Lemma joined_clock func args kwargs n c w :
  fn_call func args kwargs = Terminates n c ->
  w_clock (joined n func args kwargs w) = w_clock w + Z.of_N n.
Proof.
  intros Hb. rewrite (joined_world func args kwargs n c w Hb). simpl. lia.
Qed.

Lemma joined_log func args kwargs n c w :
  fn_call func args kwargs = Terminates n c ->
  w_log (joined n func args kwargs w) = w_log w.
Proof.
  intros Hb. rewrite (joined_world func args kwargs n c w Hb). reflexivity.
Qed.

(** ** Outcomes do not depend on the world *)

Lemma wrapper_verdict tie_finished hold timeout func args kwargs w :
  world_ok w = true ->
  outcome_of (wrapper tie_finished hold timeout func args kwargs w) =
  verdict tie_finished (hold func args kwargs) timeout (fn_name func)
    (fn_call func args kwargs).
Proof.
  intros Hok. rewrite (wrapper_run tie_finished hold func args kwargs timeout w Hok).
  unfold verdict.
  destruct (fate_of _ _ _ _) as [n [v|e]|r|k|]; simpl;
    [|destruct (captured e)|destruct (fn_name func)| |]; reflexivity.
Qed.

Lemma reap_targets now ts h : th_target <$> (reap now ts h).1 = th_target <$> ts.
Proof.
  induction ts as [|th ts IH]; [reflexivity|].
  cbn [reap]. destruct (reap now ts h) as [ts' h']. cbn [fst] in IH.
  destruct (ended_before now th); cbn [fst]; rewrite !fmap_cons, IH; reflexivity.
Qed.

Lemma elapse_targets dt w :
  th_target <$> w_threads (elapse dt w) = th_target <$> w_threads w.
Proof. unfold elapse. rewrite advance_to_threads. apply reap_targets. Qed.

Lemma elapse_next dt w : w_next (elapse dt w) = w_next w.
Proof. apply advance_to_next. Qed.

Lemma elapse_threads_length dt w :
  length (w_threads (elapse dt w)) = length (w_threads w).
Proof. unfold elapse. rewrite advance_to_threads. apply reap_length. Qed.

Lemma advanced_allocates func args kwargs r w :
  th_target <$> w_threads (advance_to (w_clock w + Z.of_N r) (started func args kwargs w)) =
    (th_target <$> w_threads w) ++ [closure_in w func args kwargs] /\
  w_next (advance_to (w_clock w + Z.of_N r) (started func args kwargs w)) = S (S (w_next w)).
Proof.
  rewrite advance_to_threads, advance_to_next, reap_targets. unfold started.
  cbn [w_threads w_next]. rewrite fmap_app. split; reflexivity.
Qed.

(** A call adds one thread, whose target holds the two cells allocated by
    this call. *)
Lemma wrapper_allocates tie_finished hold timeout func args kwargs w w' :
  world_ok w = true ->
  world_of (wrapper tie_finished hold timeout func args kwargs w) = Some w' ->
  th_target <$> w_threads w' =
    (th_target <$> w_threads w) ++ [closure_in w func args kwargs] /\
  w_next w' = S (S (w_next w)).
Proof.
  intros Hok Hw. rewrite (wrapper_run tie_finished hold func args kwargs timeout w Hok) in Hw.
  apply run_of_world in Hw.
  destruct (fate_of _ _ _ _) as [n c|r|k|] eqn:Hf; [subst w'| |subst w'|destruct Hw].
  - apply fate_ends in Hf. rewrite (joined_world func args kwargs n c w Hf). cbn zeta.
    cbn [w_threads w_next]. rewrite fmap_app, reap_targets. split; reflexivity.
  - destruct (fn_name func); subst w'; apply (advanced_allocates func args kwargs r w).
  - apply (advanced_allocates func args kwargs k w).
Qed.

(** * The claims *)







(** C3, as stated, fails: work that raises [SystemExit], or an [Exception]
    whose truth value is false, well before the deadline makes the call
    return [None]; nothing is raised to the caller.  And under a deadline
    above [TIMEOUT_MAX] the failure of the work is lost to the
    [OverflowError] of [join]. *)
Lemma failure_not_surfaced :
  outcome_of (wrapper true no_hold (Some 200) (sleep_then_raise 50 SystemExit_1) [] []
                init_world)
    = Returned (Completed, PyNone) /\
  outcome_of (wrapper true no_hold (Some 200) (sleep_then_raise 50 EmptyError) [] []
                init_world)
    = Returned (Completed, PyNone) /\
  outcome_of (wrapper true no_hold (Some 10000000000) (sleep_then_raise 50 ValueError_bad_input)
                [] [] init_world)
    = Raised (OverflowError "timestamp too large to convert to C _PyTime_t").
Proof. repeat split; vm_compute; reflexivity. Qed.

(** C3, amended. For every deadline of at most [TIMEOUT_MAX] seconds and
    every work that ends before the deadline by raising an instance of
    [Exception] whose truth value is true, the call raises to the caller
    that very exception object, unchanged and unwrapped, and logs
    nothing. *)
Theorem captured_failure_is_reraised tie_finished hold d func args kwargs n e w :
  world_ok w = true ->
  fn_call func args kwargs = Terminates n (Throws e) ->
  Z.of_N n < d ->
  d <= TIMEOUT_MAX ->
  exc_isException e = true ->
  exc_truth e = true ->
  exists w',
    wrapper tie_finished hold (Some d) func args kwargs w = Throw e w' /\
    outcome_of (call tie_finished hold (Some d) func args kwargs w) = Raised e /\
    cell (S (w_next w)) w' = Some (PyExc e) /\
    w_log w' = w_log w.
Proof.
  intros Hok Hb Hlt Hd Hexc Htruth. exists (joined n func args kwargs w).
  assert (Hrun : wrapper tie_finished hold (Some d) func args kwargs w =
                 Throw e (joined n func args kwargs w)).
  { rewrite (wrapper_run tie_finished hold func args kwargs (Some d) w Hok).
    rewrite Hb, (fate_in_time tie_finished _ d n _ Hd Hlt). cbn [run_of].
    unfold captured. rewrite Hexc, Htruth. reflexivity. }
  destruct (joined_cells func args kwargs n (Throws e) w Hok Hb) as [_ Hx].
  simpl in Hx. rewrite Hexc in Hx.
  split; [exact Hrun|]. split; [|split; [exact Hx|]].
  - unfold call, mbind, M_bind. rewrite Hrun. reflexivity.
  - exact (joined_log func args kwargs n (Throws e) w Hb).
Qed.

Lemma captured_failure_is_reraised_witness :
  exists w',
    wrapper true no_hold (Some 200) (sleep_then_raise 0 ValueError_bad_input) [] []
      init_world = Throw ValueError_bad_input w' /\
    outcome_of (call true no_hold (Some 200) (sleep_then_raise 0 ValueError_bad_input) [] []
                  init_world) = Raised ValueError_bad_input /\
    cell (S (w_next init_world)) w' = Some (PyExc ValueError_bad_input) /\
    w_log w' = w_log init_world.
Proof.
  apply (captured_failure_is_reraised true no_hold 200
           (sleep_then_raise 0 ValueError_bad_input) [] [] 0 ValueError_bad_input init_world);
    [reflexivity | reflexivity | lia | unfold TIMEOUT_MAX; lia | reflexivity | reflexivity].
Defined.

(** C4, as stated, fails: under a positive deadline above [TIMEOUT_MAX],
    work that returns 42 at once does not make the call return 42; the
    call raises the [OverflowError] of [join]. *)
Lemma long_deadline_raises :
  0 < 10000000000 /\
  fn_call (sleep_then_return 0 (PyInt 42)) [] [] = Terminates 0 (Returns (PyInt 42)) /\
  outcome_of (wrapper true no_hold (Some 10000000000) (sleep_then_return 0 (PyInt 42)) [] []
                init_world)
    = Raised (OverflowError "timestamp too large to convert to C _PyTime_t") /\
  outcome_of (call true no_hold (Some 10000000000) (sleep_then_return 0 (PyInt 42)) [] []
                init_world)
    = Raised (OverflowError "timestamp too large to convert to C _PyTime_t").
Proof. repeat split; vm_compute; reflexivity. Qed.

(** C4, amended. For every positive deadline [d] of at most [TIMEOUT_MAX]
    seconds and every work that ends without failure after [n < d] seconds
    with value [v], the call returns exactly [v] (whatever [v] is, [None]
    included): it is one [return result[0]], made [n] seconds after the
    call began and so before the deadline, and the caller gets [v]. *)
Theorem completed_returns_value tie_finished hold d func args kwargs n v w :
  world_ok w = true ->
  0 < d ->
  d <= TIMEOUT_MAX ->
  fn_call func args kwargs = Terminates n (Returns v) ->
  Z.of_N n < d ->
  exists w',
    wrapper tie_finished hold (Some d) func args kwargs w = Done (Completed, v) w' /\
    outcome_of (call tie_finished hold (Some d) func args kwargs w) = Returned v /\
    w_clock w' = w_clock w + Z.of_N n /\
    w_clock w' < w_clock w + d.
Proof.
  intros Hok Hpos Hd Hb Hlt. exists (joined n func args kwargs w).
  assert (Hrun : wrapper tie_finished hold (Some d) func args kwargs w =
                 Done (Completed, v) (joined n func args kwargs w)).
  { rewrite (wrapper_run tie_finished hold func args kwargs (Some d) w Hok).
    rewrite Hb, (fate_in_time tie_finished _ d n _ Hd Hlt). reflexivity. }
  split; [exact Hrun|]. split.
  - unfold call, mbind, M_bind. rewrite Hrun. reflexivity.
  - rewrite (joined_clock func args kwargs n (Returns v) w Hb). lia.
Qed.

Lemma completed_returns_value_witness :
  exists w',
    wrapper true no_hold (Some 200) (sleep_then_return 50 PyNone) [] [] init_world =
      Done (Completed, PyNone) w' /\
    outcome_of (call true no_hold (Some 200) (sleep_then_return 50 PyNone) [] [] init_world) =
      Returned PyNone /\
    w_clock w' = w_clock init_world + Z.of_N 50 /\
    w_clock w' < w_clock init_world + 200.
Proof.
  apply (completed_returns_value true no_hold 200 (sleep_then_return 50 PyNone) [] [] 50
           PyNone init_world);
    [reflexivity | lia | unfold TIMEOUT_MAX; lia | reflexivity | lia].
Defined.

(** C5. A call on a work function that has a name, when it gives up (its
    wait is over, and the work is not done as the caller runs again), leaves
    through the timeout exit and logs exactly one event, a warning whose
    message holds the name of the work function, the positional arguments
    and the keyword arguments.  A call that returns the result or raises
    logs nothing, and a call whose work ends before a deadline that [join]
    accepts is such a call.  In every case, every list and every thread
    that existed before the call is as the passing of time alone leaves
    it. *)
Theorem one_warning_on_timeout_only tie_finished hold func args kwargs w :
  world_ok w = true ->
  (forall d name,
      d <= TIMEOUT_MAX ->
      fn_name func = Some name ->
      outlasts (hold func args kwargs) (fn_call func args kwargs) d ->
      exists w',
        wrapper tie_finished hold (Some d) func args kwargs w = Done (TimedOut, PyNone) w' /\
        w_log w' = w_log w ++ [timeout_event (Some d) name args kwargs] /\
        untouched w w') /\
  (forall timeout name,
      ev_level (timeout_event timeout name args kwargs) = WARNING /\
      In (FmtStr name) (ev_message (timeout_event timeout name args kwargs)) /\
      In (FmtArgs args) (ev_message (timeout_event timeout name args kwargs)) /\
      In (FmtKwargs kwargs) (ev_message (timeout_event timeout name args kwargs))) /\
  (forall timeout p v w',
      wrapper tie_finished hold timeout func args kwargs w = Done (p, v) w' ->
      untouched w w' /\
      ((p = TimedOut /\
        exists name,
          fn_name func = Some name /\
          w_log w' = w_log w ++ [timeout_event timeout name args kwargs]) \/
       (p = Completed /\ w_log w' = w_log w))) /\
  (forall timeout e w',
      wrapper tie_finished hold timeout func args kwargs w = Throw e w' ->
      untouched w w' /\ w_log w' = w_log w) /\
  (forall d n c,
      d <= TIMEOUT_MAX ->
      fn_call func args kwargs = Terminates n c ->
      Z.of_N n < d ->
      exists w',
        world_of (wrapper tie_finished hold (Some d) func args kwargs w) = Some w' /\
        (forall v, wrapper tie_finished hold (Some d) func args kwargs w
                   <> Done (TimedOut, v) w') /\
        w_log w' = w_log w).
Proof.
  intros Hok. split; [|split; [|split; [|split]]].
  - intros d name Hd Hname Hlast.
    destruct (fate_outlasts tie_finished _ d _ Hd Hlast) as (r & _ & Hf & Hl).
    exists (abandoned r (Some d) name func args kwargs w). split; [|split].
    + rewrite (wrapper_run tie_finished hold func args kwargs (Some d) w Hok), Hf.
      cbn [run_of]. rewrite Hname. reflexivity.
    + apply abandoned_log.
    + apply abandoned_untouched. exact Hl.
  - intros timeout name. split; [reflexivity|]. simpl. tauto.
  - intros timeout p v w' Hrun.
    rewrite (wrapper_run tie_finished hold func args kwargs timeout w Hok) in Hrun.
    destruct (fate_of _ _ _ _) as [n c|r|k|] eqn:Hf; [| | discriminate | discriminate].
    + apply fate_ends in Hf.
      assert (p = Completed /\ w' = joined n func args kwargs w) as [-> ->].
      { destruct c as [x|e]; cbn [run_of] in Hrun; [|destruct (captured e)];
          try discriminate; injection Hrun as <- _ <-; auto. }
      split; [exact (joined_untouched func args kwargs n c w Hf)|].
      right. split; [reflexivity | exact (joined_log func args kwargs n c w Hf)].
    + apply fate_gives_up in Hf as (d & _ & _ & _ & Hl & _).
      cbn [run_of] in Hrun. destruct (fn_name func) as [name|]; [|discriminate].
      injection Hrun as <- _ <-.
      split; [apply abandoned_untouched; exact Hl|].
      left. split; [reflexivity|]. exists name. split; [reflexivity | apply abandoned_log].
  - intros timeout e w' Hrun.
    rewrite (wrapper_run tie_finished hold func args kwargs timeout w Hok) in Hrun.
    destruct (fate_of _ _ _ _) as [n c|r|k|] eqn:Hf; [| | | discriminate].
    + apply fate_ends in Hf.
      assert (w' = joined n func args kwargs w) as ->.
      { destruct c as [x|e']; cbn [run_of] in Hrun; [|destruct (captured e')];
          try discriminate; injection Hrun as _ <-; reflexivity. }
      split; [exact (joined_untouched func args kwargs n c w Hf)
             | exact (joined_log func args kwargs n c w Hf)].
    + apply fate_gives_up in Hf as (d & _ & _ & _ & Hl & _).
      cbn [run_of] in Hrun. destruct (fn_name func); [discriminate|].
      injection Hrun as _ <-.
      split; [apply gave_up_untouched; exact Hl | apply gave_up_log].
    + apply fate_refused in Hf as (d & _ & _ & _ & Hl).
      cbn [run_of] in Hrun. injection Hrun as _ <-.
      split; [apply refused_untouched; exact Hl | apply refused_log].
  - intros d n c Hd Hb Hlt. exists (joined n func args kwargs w).
    rewrite (wrapper_run tie_finished hold func args kwargs (Some d) w Hok).
    rewrite Hb, (fate_in_time tie_finished _ d n _ Hd Hlt).
    split; [|split].
    + destruct c as [v|e]; cbn [run_of]; [|destruct (captured e)]; reflexivity.
    + intros v. destruct c as [x|e]; cbn [run_of]; [|destruct (captured e)]; discriminate.
    + exact (joined_log func args kwargs n c w Hb).
Qed.

Lemma one_warning_on_timeout_only_witness :
  exists w',
    wrapper true no_hold (Some 200) (sleep_then_return 500 (PyInt 42)) [PyInt 1]
      [("k", PyStr "v")] init_world = Done (TimedOut, PyNone) w' /\
    w_log w' = w_log init_world ++
      [timeout_event (Some 200) "sleep_then_return" [PyInt 1] [("k", PyStr "v")]] /\
    untouched init_world w'.
Proof.
  refine (proj1 (one_warning_on_timeout_only true no_hold (sleep_then_return 500 (PyInt 42))
                   [PyInt 1] [("k", PyStr "v")] init_world _) 200 "sleep_then_return" _ _ _);
    [reflexivity | unfold TIMEOUT_MAX; lia | reflexivity | vm_compute; reflexivity].
Defined.




(** C7. Two calls in a row with the same deadline, work and arguments,
    with any time passing in between, do not share anything: the second
    call has the outcome of the first, which is the outcome the same call
    has in a world where nothing was ever called; each call has a thread of
    its own, whose target holds two cells of its own, allocated by that
    call; the worker of the first call, ended or abandoned, is still in the
    table with its own cells. *)
Theorem calls_are_independent tie_finished hold timeout func args kwargs w w1 (dt : N) :
  world_ok w = true ->
  world_of (wrapper tie_finished hold timeout func args kwargs w) = Some w1 ->
  let w2 := elapse dt w1 in
  outcome_of (wrapper tie_finished hold timeout func args kwargs w2) =
    outcome_of (wrapper tie_finished hold timeout func args kwargs w) /\
  outcome_of (wrapper tie_finished hold timeout func args kwargs w2) =
    outcome_of (wrapper tie_finished hold timeout func args kwargs init_world) /\
  forall w3,
    world_of (wrapper tie_finished hold timeout func args kwargs w2) = Some w3 ->
    th_target <$> w_threads w3 !! thread_in w = Some (closure_in w func args kwargs) /\
    th_target <$> w_threads w3 !! thread_in w2 = Some (closure_in w2 func args kwargs) /\
    thread_in w2 <> thread_in w /\
    cl_result (closure_in w2 func args kwargs) <> cl_result (closure_in w func args kwargs) /\
    cl_result (closure_in w2 func args kwargs) <> cl_exception (closure_in w func args kwargs) /\
    cl_exception (closure_in w2 func args kwargs) <> cl_result (closure_in w func args kwargs) /\
    cl_exception (closure_in w2 func args kwargs) <> cl_exception (closure_in w func args kwargs).
Proof.
  intros Hok Hw1 w2.
  assert (Hok1 : world_ok w1 = true) by (eapply wrapper_ok; eassumption).
  assert (Hok2 : world_ok w2 = true) by (apply elapse_ok; exact Hok1).
  destruct (wrapper_allocates tie_finished hold timeout func args kwargs w w1 Hok Hw1)
    as [Hts1 Hnext1].
  assert (Hts2 : th_target <$> w_threads w2 =
                 (th_target <$> w_threads w) ++ [closure_in w func args kwargs])
    by (subst w2; rewrite elapse_targets; exact Hts1).
  assert (Hnext2 : w_next w2 = S (S (w_next w)))
    by (subst w2; rewrite elapse_next; exact Hnext1).
  assert (Hlen2 : thread_in w2 = S (thread_in w)).
  { unfold thread_in. rewrite <- (length_fmap th_target (w_threads w2)), Hts2.
    rewrite length_app, length_fmap. simpl. lia. }
  split; [|split].
  - rewrite !wrapper_verdict by assumption. reflexivity.
  - rewrite !wrapper_verdict by (assumption || apply init_world_ok). reflexivity.
  - intros w3 Hw3.
    destruct (wrapper_allocates tie_finished hold timeout func args kwargs w2 w3 Hok2 Hw3)
      as [Hts3 _].
    rewrite <- !list_lookup_fmap, Hts3, Hts2.
    split; [|split; [|split]].
    + rewrite lookup_app_l by (rewrite length_app, length_fmap; simpl; unfold thread_in; lia).
      apply list_lookup_middle. unfold thread_in. rewrite length_fmap. reflexivity.
    + apply list_lookup_middle. rewrite <- Hts2, length_fmap. reflexivity.
    + lia.
    + simpl. rewrite Hnext2. repeat split; lia.
Qed.

Lemma calls_are_independent_witness :
  let w1 :=
    abandoned 200 (Some 200) "sleep_then_return" (sleep_then_return 500 (PyInt 42)) [] []
      init_world in
  let w2 := elapse 100 w1 in
  outcome_of (wrapper true no_hold (Some 200) (sleep_then_return 500 (PyInt 42)) [] [] w2) =
    outcome_of (wrapper true no_hold (Some 200) (sleep_then_return 500 (PyInt 42)) [] []
                  init_world) /\
  outcome_of (wrapper true no_hold (Some 200) (sleep_then_return 500 (PyInt 42)) [] [] w2) =
    outcome_of (wrapper true no_hold (Some 200) (sleep_then_return 500 (PyInt 42)) [] []
                  init_world) /\
  forall w3,
    world_of (wrapper true no_hold (Some 200) (sleep_then_return 500 (PyInt 42)) [] [] w2)
      = Some w3 ->
    th_target <$> w_threads w3 !! thread_in init_world =
      Some (closure_in init_world (sleep_then_return 500 (PyInt 42)) [] []) /\
    th_target <$> w_threads w3 !! thread_in w2 =
      Some (closure_in w2 (sleep_then_return 500 (PyInt 42)) [] []) /\
    thread_in w2 <> thread_in init_world /\
    cl_result (closure_in w2 (sleep_then_return 500 (PyInt 42)) [] []) <>
      cl_result (closure_in init_world (sleep_then_return 500 (PyInt 42)) [] []) /\
    cl_result (closure_in w2 (sleep_then_return 500 (PyInt 42)) [] []) <>
      cl_exception (closure_in init_world (sleep_then_return 500 (PyInt 42)) [] []) /\
    cl_exception (closure_in w2 (sleep_then_return 500 (PyInt 42)) [] []) <>
      cl_result (closure_in init_world (sleep_then_return 500 (PyInt 42)) [] []) /\
    cl_exception (closure_in w2 (sleep_then_return 500 (PyInt 42)) [] []) <>
      cl_exception (closure_in init_world (sleep_then_return 500 (PyInt 42)) [] []).
Proof.
  apply (calls_are_independent true no_hold (Some 200) (sleep_then_return 500 (PyInt 42))
           [] [] init_world
           (abandoned 200 (Some 200) "sleep_then_return" (sleep_then_return 500 (PyInt 42))
              [] [] init_world) 100);
    reflexivity.
Defined.

(** C8, as stated, fails: under a deadline above [TIMEOUT_MAX], work that
    raises [SystemExit] after 50 seconds, well before the deadline, does
    not make the call return [None]; the call raises the [OverflowError] of
    [join]. *)
Lemma base_exception_under_long_deadline :
  fn_call (sleep_then_raise 50 SystemExit_1) [] [] = Terminates 50 (Throws SystemExit_1) /\
  exc_isException SystemExit_1 = false /\
  50 < 10000000000 /\
  outcome_of (wrapper true no_hold (Some 10000000000) (sleep_then_raise 50 SystemExit_1) [] []
                init_world)
    = Raised (OverflowError "timestamp too large to convert to C _PyTime_t").
Proof. repeat split; vm_compute; reflexivity. Qed.

(** C8, amended. A failure that is not an instance of [Exception] (a bare
    [BaseException] such as [SystemExit]) raised by work that ends before a
    deadline of at most [TIMEOUT_MAX] seconds is not caught by the worker:
    the error cell keeps [None], nothing is raised to the caller, and the
    call returns what the result cell holds, [None]. *)
Theorem base_exception_is_swallowed tie_finished hold d func args kwargs n e w :
  world_ok w = true ->
  fn_call func args kwargs = Terminates n (Throws e) ->
  exc_isException e = false ->
  Z.of_N n < d ->
  d <= TIMEOUT_MAX ->
  exists w',
    wrapper tie_finished hold (Some d) func args kwargs w = Done (Completed, PyNone) w' /\
    cell (S (w_next w)) w' = Some PyNone /\
    cell (w_next w) w' = Some PyNone /\
    outcome_of (call tie_finished hold (Some d) func args kwargs w) = Returned PyNone.
Proof.
  intros Hok Hb He Hlt Hd. exists (joined n func args kwargs w).
  assert (Hrun : wrapper tie_finished hold (Some d) func args kwargs w =
                 Done (Completed, PyNone) (joined n func args kwargs w)).
  { rewrite (wrapper_run tie_finished hold func args kwargs (Some d) w Hok).
    rewrite Hb, (fate_in_time tie_finished _ d n _ Hd Hlt). cbn [run_of].
    unfold captured. rewrite He. reflexivity. }
  destruct (joined_cells func args kwargs n (Throws e) w Hok Hb) as [Hr Hx].
  simpl in Hr, Hx. rewrite He in Hx.
  split; [exact Hrun|]. split; [exact Hx|]. split; [exact Hr|].
  unfold call, mbind, M_bind. rewrite Hrun. reflexivity.
Qed.

Lemma base_exception_is_swallowed_witness :
  exists w',
    wrapper true no_hold (Some 200) (sleep_then_raise 50 SystemExit_1) [] [] init_world =
      Done (Completed, PyNone) w' /\
    cell (S (w_next init_world)) w' = Some PyNone /\
    cell (w_next init_world) w' = Some PyNone /\
    outcome_of (call true no_hold (Some 200) (sleep_then_raise 50 SystemExit_1) [] []
                  init_world) = Returned PyNone.
Proof.
  apply (base_exception_is_swallowed true no_hold 200 (sleep_then_raise 50 SystemExit_1) [] []
           50 SystemExit_1 init_world);
    [reflexivity | reflexivity | reflexivity | lia | unfold TIMEOUT_MAX; lia].
Defined.

(** C9. For every deadline, the decorated function carries the name and
    the qualified name of the function it wraps, whenever that has them as
    every function does, and its docstring and module, not those of
    [wrapper].  Whatever a call of the decorated function does, it logs
    nothing or one warning that begins with the name of the wrapped
    function, which is also the name of the decorated one; and it does log
    that warning when the deadline is at most [TIMEOUT_MAX] seconds and the
    work is not done as the caller runs again after its wait. *)
Theorem decorated_keeps_metadata tie_finished hold timeout func :
  (forall name,
      fn_name func = Some name ->
      fn_name (timeout_decorator tie_finished hold timeout func) = Some name) /\
  fn_doc (timeout_decorator tie_finished hold timeout func) = fn_doc func /\
  (forall qualname,
      fn_qualname func = Some qualname ->
      fn_qualname (timeout_decorator tie_finished hold timeout func) = Some qualname) /\
  fn_module (timeout_decorator tie_finished hold timeout func) = fn_module func /\
  (forall args kwargs w w',
      world_ok w = true ->
      world_of (fn_call (timeout_decorator tie_finished hold timeout func) args kwargs w)
        = Some w' ->
      w_log w' = w_log w \/
      exists name rest,
        fn_name func = Some name /\
        fn_name (timeout_decorator tie_finished hold timeout func) = Some name /\
        w_log w' = w_log w ++
          [{| ev_level := WARNING; ev_message := FmtStr name :: rest |}]) /\
  (forall d name args kwargs w,
      world_ok w = true ->
      timeout = Some d ->
      d <= TIMEOUT_MAX ->
      fn_name func = Some name ->
      outlasts (hold func args kwargs) (fn_call func args kwargs) d ->
      exists w' rest,
        fn_call (timeout_decorator tie_finished hold timeout func) args kwargs w
          = Done PyNone w' /\
        fn_name (timeout_decorator tie_finished hold timeout func) = Some name /\
        w_log w' = w_log w ++
          [{| ev_level := WARNING; ev_message := FmtStr name :: rest |}]).
Proof.
  assert (Hkeeps : forall name, fn_name func = Some name ->
            fn_name (timeout_decorator tie_finished hold timeout func) = Some name).
  { intros name Hname. cbn [timeout_decorator decorator wraps fn_name].
    rewrite Hname. reflexivity. }
  split; [exact Hkeeps|]. split; [reflexivity|]. split.
  { intros qualname Hq. cbn [timeout_decorator decorator wraps fn_qualname].
    rewrite Hq. reflexivity. }
  split; [reflexivity|]. split.
  - intros args kwargs w w' Hok Hw.
    cbn [timeout_decorator decorator wraps fn_call] in Hw.
    unfold call, mbind, M_bind in Hw.
    rewrite (wrapper_run tie_finished hold func args kwargs timeout w Hok) in Hw.
    destruct (fate_of _ _ _ _) as [n c|r|k|] eqn:Hf.
    + apply fate_ends in Hf. left.
      assert (w' = joined n func args kwargs w) as ->.
      { destruct c as [x|e]; cbn [run_of] in Hw; [|destruct (captured e)];
          cbn [world_of mret M_ret] in Hw; congruence. }
      exact (joined_log func args kwargs n c w Hf).
    + cbn [run_of] in Hw. destruct (fn_name func) as [name|] eqn:Hname.
      * right. cbn [world_of mret M_ret] in Hw. injection Hw as <-.
        exists name. eexists. split; [reflexivity|]. split; [apply Hkeeps; reflexivity|].
        rewrite abandoned_log. reflexivity.
      * left. cbn [world_of] in Hw. injection Hw as <-. apply gave_up_log.
    + left. cbn [run_of world_of] in Hw. injection Hw as <-. apply refused_log.
    + discriminate.
  - intros d name args kwargs w Hok -> Hd Hname Hlast.
    destruct (fate_outlasts tie_finished _ d _ Hd Hlast) as (r & _ & Hf & _).
    exists (abandoned r (Some d) name func args kwargs w). eexists. split; [|split].
    + cbn [timeout_decorator decorator wraps fn_call]. unfold call, mbind, M_bind.
      rewrite (wrapper_run tie_finished hold func args kwargs (Some d) w Hok), Hf.
      cbn [run_of]. rewrite Hname. reflexivity.
    + apply Hkeeps. exact Hname.
    + rewrite abandoned_log. reflexivity.
Qed.

Lemma decorated_keeps_metadata_witness :
  exists w' rest,
    fn_call (timeout_decorator true no_hold (Some 200) (sleep_then_return 500 (PyInt 42)))
      [] [] init_world = Done PyNone w' /\
    fn_name (timeout_decorator true no_hold (Some 200) (sleep_then_return 500 (PyInt 42)))
      = Some "sleep_then_return" /\
    w_log w' = w_log init_world ++
      [{| ev_level := WARNING; ev_message := FmtStr "sleep_then_return" :: rest |}].
Proof.
  apply (proj2 (proj2 (proj2 (proj2 (proj2
           (decorated_keeps_metadata true no_hold (Some 200)
              (sleep_then_return 500 (PyInt 42)))))))
           200 "sleep_then_return" [] [] init_world);
    [reflexivity | reflexivity | unfold TIMEOUT_MAX; lia | reflexivity
     | vm_compute; reflexivity].
Defined.

(** C10, as stated, fails: with no deadline, work that raises [SystemExit],
    or an [Exception] whose truth value is false, makes the call return
    [None], which is neither a value of the work nor its failure raised
    again. *)
Lemma unbounded_wait_drops_failure :
  outcome_of (wrapper true no_hold None (sleep_then_raise 50 SystemExit_1) [] [] init_world)
    = Returned (Completed, PyNone) /\
  outcome_of (wrapper true no_hold None (sleep_then_raise 50 EmptyError) [] [] init_world)
    = Returned (Completed, PyNone).
Proof. split; vm_compute; reflexivity. Qed.

(** C10, amended. When the deadline is [None] the wait has no bound, and
    the timeout exit is never taken: nothing is logged.  A call on work that
    never ends never returns.  A call on work that ends returns when the
    work does; it returns the value of the work, raises again a failure that
    is an [Exception] instance of true truth value, and returns [None] for a
    failure that is not an [Exception] instance. *)
Theorem no_deadline_never_times_out tie_finished hold func args kwargs w :
  world_ok w = true ->
  (forall p v w', wrapper tie_finished hold None func args kwargs w = Done (p, v) w' ->
     p = Completed) /\
  (forall w', world_of (wrapper tie_finished hold None func args kwargs w) = Some w' ->
     w_log w' = w_log w) /\
  match fn_call func args kwargs with
  | Diverges => wrapper tie_finished hold None func args kwargs w = Hang
  | Terminates n c =>
      exists w',
        w_clock w' = w_clock w + Z.of_N n /\
        w_log w' = w_log w /\
        state_of (thread_in w) w' = Some Stopped /\
        match c with
        | Returns v =>
            wrapper tie_finished hold None func args kwargs w = Done (Completed, v) w'
        | Throws e =>
            (exc_isException e = true -> exc_truth e = true ->
               wrapper tie_finished hold None func args kwargs w = Throw e w') /\
            (exc_isException e = false ->
               wrapper tie_finished hold None func args kwargs w = Done (Completed, PyNone) w')
        end
  end.
Proof.
  intros Hok.
  pose proof (wrapper_run tie_finished hold func args kwargs None w Hok) as Hrun.
  destruct (fn_call func args kwargs) as [n c|] eqn:Hb.
  - rewrite fate_unbounded in Hrun. split; [|split].
    + intros p v w' Hdone. rewrite Hrun in Hdone.
      destruct c as [x|e]; cbn [run_of] in Hdone; [|destruct (captured e)]; congruence.
    + intros w' Hw. rewrite Hrun in Hw. apply run_of_world in Hw. subst w'.
      exact (joined_log func args kwargs n c w Hb).
    + exists (joined n func args kwargs w).
      split; [exact (joined_clock func args kwargs n c w Hb)|].
      split; [exact (joined_log func args kwargs n c w Hb)|].
      split; [exact (joined_state func args kwargs n c w Hb)|].
      destruct c as [v|e]; [exact Hrun|]. cbn [run_of] in Hrun. unfold captured in Hrun.
      split.
      * intros He Ht. rewrite He, Ht in Hrun. exact Hrun.
      * intros He. rewrite He in Hrun. exact Hrun.
  - rewrite fate_unbounded_diverges in Hrun. split; [|split].
    + intros p v w' Hdone. rewrite Hrun in Hdone. discriminate.
    + intros w' Hw. rewrite Hrun in Hw. discriminate.
    + exact Hrun.
Qed.

Lemma no_deadline_never_times_out_witness :
  (forall p v w',
     wrapper true no_hold None (sleep_then_raise 50 ValueError_bad_input) [] [] init_world
       = Done (p, v) w' -> p = Completed) /\
  (forall w',
     world_of (wrapper true no_hold None (sleep_then_raise 50 ValueError_bad_input) [] []
                 init_world)
       = Some w' -> w_log w' = w_log init_world) /\
  match fn_call (sleep_then_raise 50 ValueError_bad_input) [] [] with
  | Diverges =>
      wrapper true no_hold None (sleep_then_raise 50 ValueError_bad_input) [] [] init_world
        = Hang
  | Terminates n c =>
      exists w',
        w_clock w' = w_clock init_world + Z.of_N n /\
        w_log w' = w_log init_world /\
        state_of (thread_in init_world) w' = Some Stopped /\
        match c with
        | Returns v =>
            wrapper true no_hold None (sleep_then_raise 50 ValueError_bad_input) [] []
              init_world = Done (Completed, v) w'
        | Throws e =>
            (exc_isException e = true -> exc_truth e = true ->
               wrapper true no_hold None (sleep_then_raise 50 ValueError_bad_input) [] []
                 init_world = Throw e w') /\
            (exc_isException e = false ->
               wrapper true no_hold None (sleep_then_raise 50 ValueError_bad_input) [] []
                 init_world = Done (Completed, PyNone) w')
        end
  end.
Proof.
  apply (no_deadline_never_times_out true no_hold (sleep_then_raise 50 ValueError_bad_input)
           [] [] init_world).
  reflexivity.
Defined.

(** * The rest of [czsc.utils] *)

(** ** freqs_sorted *)

Lemma py_in_In x xs : py_in x xs = true <-> In x xs.
Proof.
  unfold py_in. rewrite existsb_exists. split.
  - intros (y & Hy & Heq). apply String.eqb_eq in Heq. subst y. exact Hy.
  - intros Hx. exists x. split; [exact Hx | apply String.eqb_refl].
Qed.

Lemma sorted_freqs_NoDup : List.NoDup sorted_freqs.
Proof. apply NoDup_ListNoDup, (bool_decide_unpack _). vm_compute. exact I. Qed.

Lemma index_of_In x xs : In x xs -> exists i, index_of x xs = Some i.
Proof.
  induction xs as [|y ys IH]; simpl; [tauto|].
  intros [->|Hin].
  - rewrite String.eqb_refl. eauto.
  - destruct (String.eqb y x); [eauto|]. destruct (IH Hin) as [i ->]. simpl. eauto.
Qed.

Lemma index_of_not_In x xs : ~ In x xs -> index_of x xs = None.
Proof.
  induction xs as [|y ys IH]; simpl; [reflexivity|].
  intros Hn. destruct (String.eqb_spec y x) as [->|_]; [tauto|].
  rewrite IH by tauto. reflexivity.
Qed.

(** In a filtered list without repetition the places in the original list
    go up strictly. *)
Lemma filter_index_increasing (f : string -> bool) xs :
  List.NoDup xs ->
  StronglySorted
    (fun a b => exists i j, index_of a xs = Some i /\ index_of b xs = Some j /\ (i < j)%nat)
    (List.filter f xs).
Proof.
  induction 1 as [|y ys Hy Hnd IH]; simpl; [constructor|].
  assert (Hlift : StronglySorted
            (fun a b => exists i j, index_of a (y :: ys) = Some i /\
                                    index_of b (y :: ys) = Some j /\ (i < j)%nat)
            (List.filter f ys)).
  { assert (Hsub : forall a, In a (List.filter f ys) -> In a ys)
      by (intros a Ha; apply filter_In in Ha; tauto).
    revert Hsub. induction IH as [|a l Hl IHl Hall]; intros Hsub; constructor.
    - apply IHl. intros b Hb. apply Hsub. right. exact Hb.
    - rewrite List.Forall_forall in Hall |- *. intros b Hb.
      destruct (Hall b Hb) as (i & j & Hi & Hj & Hlt).
      exists (S i), (S j). simpl.
      destruct (String.eqb_spec y a) as [->|_];
        [exfalso; apply Hy, Hsub; left; reflexivity|].
      destruct (String.eqb_spec y b) as [->|_];
        [exfalso; apply Hy, Hsub; right; exact Hb|].
      rewrite Hi, Hj. simpl. repeat split; lia. }
  destruct (f y); [|exact Hlift]. constructor; [exact Hlift|].
  rewrite List.Forall_forall. intros b Hb. apply filter_In in Hb as [Hb _].
  destruct (index_of_In b ys Hb) as [j Hj].
  exists 0%nat, (S j). simpl. rewrite String.eqb_refl.
  destruct (String.eqb_spec y b) as [->|_]; [tauto|]. rewrite Hj. simpl.
  repeat split; lia.
Qed.

(** The result of [freqs_sorted] holds exactly the periods of the input
    that are known periods. *)
Lemma freqs_sorted_elements freqs x :
  In x (freqs_sorted freqs) <-> In x sorted_freqs /\ In x freqs.
Proof.
  unfold freqs_sorted. rewrite filter_In, py_in_In. reflexivity.
Qed.

(** X1. The result of [freqs_sorted] holds the periods of the input that
    are known periods, and no others; it has no repetition and goes up
    strictly in the order of [sorted_freqs], whatever the order and the
    repetitions of the input.  So its first element is the finest period of
    the input: it is a period of the input, and every other known period of
    the input comes after it in [sorted_freqs]. *)
Theorem freqs_sorted_increasing freqs :
  (forall x, In x (freqs_sorted freqs) <-> In x sorted_freqs /\ In x freqs) /\
  List.NoDup (freqs_sorted freqs) /\
  StronglySorted
    (fun a b => exists i j,
       index_of a sorted_freqs = Some i /\ index_of b sorted_freqs = Some j /\ (i < j)%nat)
    (freqs_sorted freqs) /\
  (forall x rest,
      freqs_sorted freqs = x :: rest ->
      In x freqs /\
      forall y, In y freqs -> In y sorted_freqs -> y <> x ->
        exists i j,
          index_of x sorted_freqs = Some i /\ index_of y sorted_freqs = Some j /\
          (i < j)%nat).
Proof.
  assert (Hsorted : StronglySorted
    (fun a b => exists i j,
       index_of a sorted_freqs = Some i /\ index_of b sorted_freqs = Some j /\ (i < j)%nat)
    (freqs_sorted freqs))
    by apply filter_index_increasing, sorted_freqs_NoDup.
  split; [apply freqs_sorted_elements|].
  split; [apply List.NoDup_filter, sorted_freqs_NoDup|].
  split; [exact Hsorted|].
  intros x rest Heq. split.
  - assert (Hin : In x (freqs_sorted freqs)) by (rewrite Heq; left; reflexivity).
    exact (proj2 (proj1 (freqs_sorted_elements freqs x) Hin)).
  - intros y Hy Hknown Hne.
    pose proof (proj2 (freqs_sorted_elements freqs y) (conj Hknown Hy)) as Hin.
    rewrite Heq in Hsorted, Hin. apply StronglySorted_inv in Hsorted as [_ Hall].
    destruct Hin as [->|Hin]; [congruence|].
    rewrite List.Forall_forall in Hall. exact (Hall y Hin).
Qed.

(** X2. Two inputs with the same elements, in any order and with any
    repetitions, give the same result. *)
Theorem freqs_sorted_same_elements freqs freqs' :
  (forall x, In x freqs <-> In x freqs') ->
  freqs_sorted freqs = freqs_sorted freqs'.
Proof.
  intros Hsame. unfold freqs_sorted. apply filter_ext. intros x.
  apply eq_true_iff_eq. rewrite !py_in_In. apply Hsame.
Qed.

Lemma freqs_sorted_same_elements_witness :
  freqs_sorted ["日线"; "1分钟"; "日线"] = freqs_sorted ["1分钟"; "日线"].
Proof.
  apply (freqs_sorted_same_elements ["日线"; "1分钟"; "日线"] ["1分钟"; "日线"]).
  intros x. simpl. tauto.
Defined.

(** X3. Sorting a sorted result again changes nothing. *)
Theorem freqs_sorted_idempotent freqs :
  freqs_sorted (freqs_sorted freqs) = freqs_sorted freqs.
Proof.
  unfold freqs_sorted at 1 3. apply filter_ext_in. intros x Hx.
  apply eq_true_iff_eq. rewrite !py_in_In, freqs_sorted_elements. tauto.
Qed.

(** ** timeout_decorator, further *)

(** X16. A deadline does nothing against work that keeps the interpreter
    to itself for as long as it runs: under any positive deadline of at most
    [TIMEOUT_MAX] seconds the caller runs again only when the work has
    ended, so the call ends exactly as the same call with no deadline does,
    without a warning; and when the work never ends, neither does the
    call. *)
Theorem held_interpreter_defeats_deadline tie_finished hold d func args kwargs w :
  world_ok w = true ->
  0 < d ->
  d <= TIMEOUT_MAX ->
  (forall t, hold func args kwargs t = None) ->
  wrapper tie_finished hold (Some d) func args kwargs w =
    wrapper tie_finished hold None func args kwargs w /\
  (forall w', world_of (wrapper tie_finished hold (Some d) func args kwargs w) = Some w' ->
     w_log w' = w_log w) /\
  (fn_call func args kwargs = Diverges ->
   wrapper tie_finished hold (Some d) func args kwargs w = Hang).
Proof.
  intros Hok Hpos Hd Hhold.
  assert (Hf : fate_of tie_finished (hold func args kwargs) (Some d)
                 (fn_call func args kwargs) =
               fate_of tie_finished (hold func args kwargs) None (fn_call func args kwargs)).
  { unfold fate_of. rewrite Hhold.
    destruct (fn_call func args kwargs) as [n c|]; [|reflexivity]. cbn [resume_of].
    assert (Hacc : (TIMEOUT_MAX <? d) = false) by (apply Z.ltb_ge; exact Hd).
    rewrite Hacc. cbv zeta. rewrite done_by_before by lia. reflexivity. }
  pose proof (wrapper_run tie_finished hold func args kwargs (Some d) w Hok) as Hrun.
  pose proof (wrapper_run tie_finished hold func args kwargs None w Hok) as Hnone.
  rewrite Hf in Hrun.
  destruct (fn_call func args kwargs) as [n c|] eqn:Hb.
  - rewrite fate_unbounded in Hrun, Hnone.
    assert (Heq : run_of (Ends n c) (Some d) func args kwargs w =
                  run_of (Ends n c) None func args kwargs w) by (destruct c; reflexivity).
    split; [rewrite Hrun, Hnone; exact Heq|]. split; [|discriminate].
    intros w' Hw. rewrite Hrun in Hw. apply run_of_world in Hw. subst w'.
    exact (joined_log func args kwargs n c w Hb).
  - rewrite fate_unbounded_diverges in Hrun, Hnone.
    split; [rewrite Hrun, Hnone; reflexivity|]. split; [|intros _; exact Hrun].
    intros w' Hw. rewrite Hrun in Hw. discriminate.
Qed.

Lemma held_interpreter_defeats_deadline_witness :
  wrapper true holds_throughout (Some 200) (sleep_then_return 500 (PyInt 42)) [] [] init_world =
    wrapper true holds_throughout None (sleep_then_return 500 (PyInt 42)) [] [] init_world /\
  (forall w',
     world_of (wrapper true holds_throughout (Some 200) (sleep_then_return 500 (PyInt 42))
                 [] [] init_world) = Some w' ->
     w_log w' = w_log init_world) /\
  (fn_call (sleep_then_return 500 (PyInt 42)) [] [] = Diverges ->
   wrapper true holds_throughout (Some 200) (sleep_then_return 500 (PyInt 42)) [] []
     init_world = Hang).
Proof.
  apply (held_interpreter_defeats_deadline true holds_throughout 200
           (sleep_then_return 500 (PyInt 42)) [] [] init_world);
    [reflexivity | lia | unfold TIMEOUT_MAX; lia | intros t; reflexivity].
Defined.

(** X17. A deadline above [TIMEOUT_MAX] seconds makes every call on work
    that ends fail: the worker is started all the same, [join] raises
    [OverflowError] as soon as the caller runs again, nothing is logged, and
    the call hands the caller neither the value nor the failure of the
    work. *)
Theorem long_deadline_is_refused tie_finished hold d func args kwargs n c w :
  world_ok w = true ->
  TIMEOUT_MAX < d ->
  fn_call func args kwargs = Terminates n c ->
  exists w',
    wrapper tie_finished hold (Some d) func args kwargs w =
      Throw (OverflowError "timestamp too large to convert to C _PyTime_t") w' /\
    outcome_of (call tie_finished hold (Some d) func args kwargs w) =
      Raised (OverflowError "timestamp too large to convert to C _PyTime_t") /\
    th_target <$> w_threads w' !! thread_in w = Some (closure_in w func args kwargs) /\
    w_log w' = w_log w.
Proof.
  intros Hok Hd Hb.
  destruct (fate_too_long tie_finished (hold func args kwargs) d n c Hd) as (k & _ & Hf & Hk).
  pose proof (wrapper_run tie_finished hold func args kwargs (Some d) w Hok) as Hrun.
  rewrite Hb, Hf in Hrun. cbn [run_of] in Hrun.
  exists (refused k func args kwargs w). split; [exact Hrun|]. split; [|split].
  - unfold call, mbind, M_bind. rewrite Hrun. reflexivity.
  - unfold refused. rewrite advanced_lookup; [reflexivity|].
    rewrite Hb. apply N.leb_le. exact Hk.
  - apply refused_log.
Qed.

Lemma long_deadline_is_refused_witness :
  exists w',
    wrapper true no_hold (Some 10000000000) (sleep_then_return 50 (PyInt 42)) [] [] init_world =
      Throw (OverflowError "timestamp too large to convert to C _PyTime_t") w' /\
    outcome_of (call true no_hold (Some 10000000000) (sleep_then_return 50 (PyInt 42)) [] []
                  init_world) =
      Raised (OverflowError "timestamp too large to convert to C _PyTime_t") /\
    th_target <$> w_threads w' !! thread_in init_world =
      Some (closure_in init_world (sleep_then_return 50 (PyInt 42)) [] []) /\
    w_log w' = w_log init_world.
Proof.
  apply (long_deadline_is_refused true no_hold 10000000000 (sleep_then_return 50 (PyInt 42))
           [] [] 50 (Returns (PyInt 42)) init_world);
    [reflexivity | unfold TIMEOUT_MAX; lia | reflexivity].
Defined.

(** X19. A callable without a [__name__] can be decorated, and its calls
    go well as long as the work ends in time; but when the caller gives up,
    building the warning fails: the call raises [AttributeError] instead of
    returning [None], nothing is logged, and the worker is left running. *)
Theorem nameless_callable_fails_on_timeout tie_finished hold d func args kwargs w :
  world_ok w = true ->
  d <= TIMEOUT_MAX ->
  fn_name func = None ->
  fn_name (timeout_decorator tie_finished hold (Some d) func) = Some "wrapper" /\
  (outlasts (hold func args kwargs) (fn_call func args kwargs) d ->
   exists w',
     wrapper tie_finished hold (Some d) func args kwargs w =
       Throw (AttributeError "__name__") w' /\
     outcome_of (call tie_finished hold (Some d) func args kwargs w) =
       Raised (AttributeError "__name__") /\
     state_of (thread_in w) w' = Some (Running (w_clock w)) /\
     w_log w' = w_log w) /\
  (forall n v,
      fn_call func args kwargs = Terminates n (Returns v) ->
      Z.of_N n < d ->
      outcome_of (call tie_finished hold (Some d) func args kwargs w) = Returned v).
Proof.
  intros Hok Hd Hname.
  pose proof (wrapper_run tie_finished hold func args kwargs (Some d) w Hok) as Hrun.
  split; [|split].
  - cbn [timeout_decorator decorator wraps fn_name]. rewrite Hname. reflexivity.
  - intros Hlast.
    destruct (fate_outlasts tie_finished _ d _ Hd Hlast) as (r & _ & Hf & Hl).
    rewrite Hf in Hrun. cbn [run_of] in Hrun. rewrite Hname in Hrun.
    exists (gave_up r func args kwargs w). split; [exact Hrun|]. split; [|split].
    + unfold call, mbind, M_bind. rewrite Hrun. reflexivity.
    + unfold state_of, gave_up. rewrite (advanced_lookup func args kwargs r w Hl).
      reflexivity.
    + apply gave_up_log.
  - intros n v Hb Hlt.
    rewrite Hb, (fate_in_time tie_finished _ d n _ Hd Hlt) in Hrun. cbn [run_of] in Hrun.
    unfold call, mbind, M_bind. rewrite Hrun. reflexivity.
Qed.

Lemma nameless_callable_fails_on_timeout_witness :
  exists w',
    wrapper true no_hold (Some 200) (partial_sleep 500) [] [] init_world =
      Throw (AttributeError "__name__") w' /\
    outcome_of (call true no_hold (Some 200) (partial_sleep 500) [] [] init_world) =
      Raised (AttributeError "__name__") /\
    state_of (thread_in init_world) w' = Some (Running (w_clock init_world)) /\
    w_log w' = w_log init_world.
Proof.
  refine (proj1 (proj2 (nameless_callable_fails_on_timeout true no_hold 200 (partial_sleep 500)
                          [] [] init_world _ _ _)) _);
    [reflexivity | unfold TIMEOUT_MAX; lia | reflexivity | vm_compute; reflexivity].
Defined.

(** ** import_by_name *)

Lemma has_dot_app s t : has_dot (s ++ t) = has_dot s || has_dot t.
Proof.
  induction s as [|c s IH]; simpl; [reflexivity|].
  rewrite IH. apply orb_assoc.
Qed.

Lemma split_last_dot_none s : split_last_dot s = None <-> has_dot s = false.
Proof.
  induction s as [|c s IH]; simpl; [tauto|].
  destruct (split_last_dot s) as [[b a]|].
  - split; [discriminate|]. intros H. apply orb_false_iff in H as [_ H].
    apply IH in H. discriminate.
  - destruct (Ascii.eqb c "."); simpl; [split; discriminate|].
    split; intros _; [apply IH|]; reflexivity.
Qed.

Lemma split_last_dot_some s before after :
  split_last_dot s = Some (before, after) ->
  s = (before ++ "." ++ after)%string /\ has_dot after = false.
Proof.
  revert before. induction s as [|c s IH]; intros before; simpl; [discriminate|].
  destruct (split_last_dot s) as [[b a]|] eqn:Hs.
  - intros [= <- <-]. destruct (IH b eq_refl) as [-> Ha]. split; [reflexivity | exact Ha].
  - destruct (Ascii.eqb_spec c "."); [|discriminate].
    intros [= <- <-]. subst c. split; [reflexivity|]. apply split_last_dot_none, Hs.
Qed.

Lemma split_last_dot_app m f :
  has_dot f = false -> split_last_dot (m ++ "." ++ f) = Some (m, f).
Proof.
  intros Hf. change ("." ++ f)%string with (String "." f).
  induction m as [|c m IH].
  - apply split_last_dot_none in Hf. change (split_last_dot (String "." f) = Some ("", f)).
    simpl. rewrite Hf. reflexivity.
  - change (split_last_dot (String c (m ++ String "." f)) = Some (String c m, f)).
    simpl. rewrite IH. reflexivity.
Qed.

(** X7. A dotted name is cut at its last dot: for every [m] and every [f]
    without a dot, [import_by_name] applied to [m.f] imports the module named
    [m], dots included, asking for [f], and returns the entry [f] of its
    namespace; it raises [KeyError] when there is none, and what the import
    raises when the import fails. *)
Theorem import_by_name_dotted {module value}
  (import_module : string -> list string -> exc_obj + module)
  (vars_of : module -> gmap string value) m f :
  has_dot f = false ->
  import_by_name module value import_module vars_of (m ++ "." ++ f) =
  match import_module m [f] with
  | inl e => inl e
  | inr md =>
      match vars_of md !! f with
      | Some v => inr (Attribute v)
      | None => inl (KeyError f)
      end
  end.
Proof.
  intros Hf. unfold import_by_name, rsplit_dot.
  rewrite has_dot_app, split_last_dot_app by exact Hf.
  simpl. rewrite orb_true_r. reflexivity.
Qed.

Lemma import_by_name_dotted_witness :
  import_by_name unit Z sample_import sample_vars ("czsc.objects" ++ "." ++ "Factor") =
  match sample_import "czsc.objects" ["Factor"] with
  | inl e => inl e
  | inr md =>
      match sample_vars md !! "Factor" with
      | Some v => inr (Attribute v)
      | None => inl (KeyError "Factor")
      end
  end.
Proof.
  apply (import_by_name_dotted sample_import sample_vars "czsc.objects" "Factor").
  reflexivity.
Defined.

(** X8. [import_by_name] never fails in unpacking the result of [rsplit]:
    a name without a dot is imported whole and the module itself is returned;
    every other name is of the form [m.f] with no dot in [f], and the entry
    [f] of the namespace of the module named [m] is looked up. *)
Theorem import_by_name_cases {module value}
  (import_module : string -> list string -> exc_obj + module)
  (vars_of : module -> gmap string value) name :
  (has_dot name = false /\
   import_by_name module value import_module vars_of name =
   match import_module name [] with
   | inl e => inl e
   | inr md => inr (Module md)
   end) \/
  (exists m f,
     name = (m ++ "." ++ f)%string /\ has_dot f = false /\
     import_by_name module value import_module vars_of name =
     match import_module m [f] with
     | inl e => inl e
     | inr md =>
         match vars_of md !! f with
         | Some v => inr (Attribute v)
         | None => inl (KeyError f)
         end
     end).
Proof.
  destruct (has_dot name) eqn:Hdot.
  - right. destruct (split_last_dot name) as [[m f]|] eqn:Hs.
    + destruct (split_last_dot_some name m f Hs) as [-> Hf].
      exists m, f. split; [reflexivity|]. split; [exact Hf|].
      unfold import_by_name, rsplit_dot. rewrite Hdot, Hs. reflexivity.
    + apply split_last_dot_none in Hs. congruence.
  - left. split; [reflexivity|]. unfold import_by_name. rewrite Hdot. reflexivity.
Qed.

(** ** mac_address *)

Example mac_address_sample : mac_address 0x1A2B3C4D5E6F = inr "1A-2B-3C-4D-5E-6F".
Proof. vm_compute. reflexivity. Qed.

Lemma small_cases (P : N -> Prop) :
  P 0%N -> P 1%N -> P 2%N -> P 3%N -> P 4%N -> P 5%N -> P 6%N -> P 7%N ->
  P 8%N -> P 9%N -> P 10%N -> P 11%N -> P 12%N -> P 13%N -> P 14%N -> P 15%N ->
  forall d, (d < 16)%N -> P d.
Proof.
  intros H0 H1 H2 H3 H4 H5 H6 H7 H8 H9 H10 H11 H12 H13 H14 H15 d Hd.
  assert (Hc : (d = 0 \/ d = 1 \/ d = 2 \/ d = 3 \/ d = 4 \/ d = 5 \/ d = 6 \/ d = 7 \/
                d = 8 \/ d = 9 \/ d = 10 \/ d = 11 \/ d = 12 \/ d = 13 \/ d = 14 \/
                d = 15)%N) by lia.
  repeat (destruct Hc as [->|Hc]; [assumption|]). subst d. assumption.
Qed.

Lemma unhex_upper_hex d : (d < 16)%N -> unhex_char (upper_char (hex_char d)) = d.
Proof. revert d. apply small_cases; reflexivity. Qed.

Lemma upper_hex_digit d :
  (d < 16)%N ->
  In (upper_char (hex_char d)) (list_ascii_of_string "0123456789ABCDEF").
Proof. revert d. apply small_cases; vm_compute; tauto. Qed.

Lemma hex_le_inj k a b :
  hex_le k a = hex_le k b -> (a mod 16 ^ N.of_nat k = b mod 16 ^ N.of_nat k)%N.
Proof.
  revert a b. induction k as [|k IH]; intros a b H.
  - simpl. rewrite !N.mod_1_r. reflexivity.
  - simpl in H. injection H as H0 Hk. apply IH in Hk.
    rewrite Nat2N.inj_succ, N.pow_succ_r', !N.Div0.mod_mul_r, H0, Hk. reflexivity.
Qed.

(** The string [mac_address] builds, digit by digit. *)
Lemma mac_address_digits n :
  (n < 2 ^ 128)%N ->
  exists d0 d1 d2 d3 d4 d5 d6 d7 d8 d9 d10 d11,
    hex_le 12 n = [d0; d1; d2; d3; d4; d5; d6; d7; d8; d9; d10; d11] /\
    mac_address n =
    inr (string_of_list_ascii
           (map (fun x => match x with
                          | Some d => upper_char (hex_char d)
                          | None => "-"%char
                          end)
              [Some d11; Some d10; None; Some d9; Some d8; None; Some d7; Some d6; None;
               Some d5; Some d4; None; Some d3; Some d2; None; Some d1; Some d0])).
Proof.
  intros Hn. unfold mac_address. apply N.ltb_lt in Hn. rewrite Hn.
  do 12 eexists. split; [cbn [hex_le]; reflexivity|].
  unfold format_032x, py_suffix.
  cbn [hex_le rev app map string_of_list_ascii String.length Nat.sub substring upper].
  change (py_range 0 11 2) with [0; 2; 4; 6; 8; 10]%nat.
  cbv [map substring String.concat String.append string_of_list_ascii].
  reflexivity.
Qed.

Lemma hex_le_bound k n : Forall (fun d => (d < 16)%N) (hex_le k n).
Proof.
  revert n. induction k as [|k IH]; intros n; simpl; constructor; [|apply IH].
  apply N.mod_lt. discriminate.
Qed.

(** X9. For every hardware address of at most 128 bits, [mac_address]
    gives a string of 17 characters: six pairs of upper-case hexadecimal
    digits with a ["-"] between them. *)
Theorem mac_address_format node :
  (node < 2 ^ 128)%N ->
  exists s,
    mac_address node = inr s /\
    String.length s = 17%nat /\
    forall i c, get i s = Some c ->
      if (i mod 3 =? 2)%nat then c = "-"%char
      else In c (list_ascii_of_string "0123456789ABCDEF").
Proof.
  intros Hn.
  destruct (mac_address_digits node Hn)
    as (d0 & d1 & d2 & d3 & d4 & d5 & d6 & d7 & d8 & d9 & d10 & d11 & Hd & ->).
  pose proof (hex_le_bound 12 node) as Hb. rewrite Hd in Hb.
  repeat match goal with
         | H : Forall _ (_ :: _) |- _ => apply Forall_cons in H as [? H]
         end.
  clear Hb Hd.
  eexists. split; [reflexivity|]. split; [reflexivity|].
  cbn [map string_of_list_ascii]. intros i c.
  do 17 (destruct i as [|i];
         [intros Hget; cbn [get] in Hget; injection Hget as <-;
          match goal with
          | |- if ?b then _ else _ =>
              let v := eval vm_compute in b in change b with v
          end; cbv iota; first [reflexivity | apply upper_hex_digit; assumption]|]).
  intros Hget. cbn [get] in Hget. discriminate.
Qed.

Lemma mac_address_format_witness :
  exists s,
    mac_address 0x1A2B3C4D5E6F = inr s /\
    String.length s = 17%nat /\
    forall i c, get i s = Some c ->
      if (i mod 3 =? 2)%nat then c = "-"%char
      else In c (list_ascii_of_string "0123456789ABCDEF").
Proof.
  apply (mac_address_format 0x1A2B3C4D5E6F). reflexivity.
Defined.

(** X10. Two hardware addresses of 48 bits that give the same string are
    equal: the string keeps the whole address. *)
Theorem mac_address_injective a b :
  (a < 2 ^ 48)%N -> (b < 2 ^ 48)%N ->
  mac_address a = mac_address b -> a = b.
Proof.
  intros Ha Hb Heq.
  assert (Hbig : (2 ^ 48 < 2 ^ 128)%N) by reflexivity.
  destruct (mac_address_digits a (N.lt_trans _ _ _ Ha Hbig))
    as (a0 & a1 & a2 & a3 & a4 & a5 & a6 & a7 & a8 & a9 & a10 & a11 & Hda & Hma).
  destruct (mac_address_digits b (N.lt_trans _ _ _ Hb Hbig))
    as (b0 & b1 & b2 & b3 & b4 & b5 & b6 & b7 & b8 & b9 & b10 & b11 & Hdb & Hmb).
  rewrite Hma, Hmb in Heq. cbn [map string_of_list_ascii] in Heq.
  injection Heq as E11 E10 E9 E8 E7 E6 E5 E4 E3 E2 E1 E0.
  pose proof (hex_le_bound 12 a) as Hba. rewrite Hda in Hba.
  pose proof (hex_le_bound 12 b) as Hbb. rewrite Hdb in Hbb.
  repeat match goal with
         | H : Forall _ (_ :: _) |- _ => apply Forall_cons in H as [? H]
         end.
  assert (Hdigits : hex_le 12 a = hex_le 12 b).
  { repeat match goal with
           | E : upper_char (hex_char _) = upper_char (hex_char _) |- _ =>
               apply (f_equal unhex_char) in E;
               rewrite !unhex_upper_hex in E by assumption
           end.
    rewrite Hda, Hdb. congruence. }
  apply hex_le_inj in Hdigits.
  change (16 ^ N.of_nat 12)%N with (2 ^ 48)%N in Hdigits.
  rewrite !N.mod_small in Hdigits by assumption. exact Hdigits.
Qed.

Lemma mac_address_injective_witness : 0x1A2B3C4D5E6F%N = 0x1A2B3C4D5E6F%N.
Proof.
  apply (mac_address_injective 0x1A2B3C4D5E6F 0x1A2B3C4D5E6F);
    [reflexivity | reflexivity | reflexivity].
Defined.

(** ** create_grid_params *)

Example create_grid_params_sample :
  create_grid_params "test" 3
    [("x", Scalar (PyInt 2)); ("y", PyTuple [PyStr "a"; PyStr "b"])] =
  inr [("test@001", [("x", PyInt 2); ("y", PyStr "a"); ("version", PyStr "test001")]);
       ("test@002", [("x", PyInt 2); ("y", PyStr "b"); ("version", PyStr "test002")])].
Proof. vm_compute. reflexivity. Qed.

Example create_grid_params_sample_0 :
  create_grid_params "test" 0
    [("y", PyTuple [PyStr "a"; PyStr "b"]); ("x", PyList [PyInt 1; PyInt 2])] =
  inr [("test@x=1#y=a", [("x", PyInt 1); ("y", PyStr "a"); ("version", PyStr "testx=1#y=a")]);
       ("test@x=1#y=b", [("x", PyInt 1); ("y", PyStr "b"); ("version", PyStr "testx=1#y=b")]);
       ("test@x=2#y=a", [("x", PyInt 2); ("y", PyStr "a"); ("version", PyStr "testx=2#y=a")]);
       ("test@x=2#y=b", [("x", PyInt 2); ("y", PyStr "b"); ("version", PyStr "testx=2#y=b")])].
Proof. vm_compute. reflexivity. Qed.

(** *** Row keys *)

Lemma to_uint_not_nil i : Nat.to_uint i <> Nil.
Proof.
  rewrite <- (Unsigned.of_to i) at 1. rewrite Unsigned.to_of. unfold unorm.
  destruct (nzhead (Nat.to_uint i)); discriminate.
Qed.

Lemma str_nat_unsigned i :
  exists c rest, str_nat i = String c rest /\
    Ascii.eqb c "+" || Ascii.eqb c "-" = false.
Proof.
  unfold str_nat. pose proof (to_uint_not_nil i) as Hnil.
  destruct (Nat.to_uint i); [congruence| ..]; simpl; eauto.
Qed.

Lemma zfill_str_nat width i :
  exists k, zfill_pad width (str_nat i) = (zeros k ++ str_nat i)%string.
Proof.
  unfold zfill_pad. destruct (width <=? _); [exists 0%nat; reflexivity|].
  destruct (str_nat_unsigned i) as (c & rest & -> & Hc). rewrite Hc. eauto.
Qed.

Lemma uint_of_string_zeros k s :
  NilEmpty.uint_of_string (zeros k ++ s) =
  Nat.iter k D0 <$> NilEmpty.uint_of_string s.
Proof.
  induction k as [|k IH].
  - change (zeros 0 ++ s)%string with s. destruct (NilEmpty.uint_of_string s); reflexivity.
  - change (zeros (S k) ++ s)%string with (String "0" (zeros k ++ s)).
    cbn [NilEmpty.uint_of_string]. rewrite IH.
    destruct (NilEmpty.uint_of_string s); reflexivity.
Qed.

Lemma of_uint_iter_D0 k d : Nat.of_uint (Nat.iter k D0 d) = Nat.of_uint d.
Proof. induction k as [|k IH]; [reflexivity|]. simpl. exact IH. Qed.

Lemma parse_zfill width i : parse_nat (zfill_pad width (str_nat i)) = Some i.
Proof.
  destruct (zfill_str_nat width i) as [k ->]. unfold parse_nat, str_nat.
  rewrite uint_of_string_zeros, NilEmpty.usu. simpl.
  rewrite of_uint_iter_D0, Unsigned.of_to. reflexivity.
Qed.

Lemma append_cancel_l p a b : (p ++ a)%string = (p ++ b)%string -> a = b.
Proof.
  induction p as [|c p IH]; intros H; [exact H|].
  apply IH. change (String c (p ++ a) = String c (p ++ b)) in H. congruence.
Qed.

Lemma grid_entry_key_inj prefix multiply i row j row' :
  multiply <> 0 ->
  fst (grid_entry prefix multiply (i, row)) = fst (grid_entry prefix multiply (j, row')) ->
  i = j.
Proof.
  intros Hm H. unfold grid_entry, row_key_of in H. cbn [fst snd] in H.
  apply Z.eqb_neq in Hm. rewrite Hm in H.
  apply append_cancel_l, append_cancel_l in H.
  apply (f_equal parse_nat) in H. rewrite !parse_zfill in H. congruence.
Qed.

(** *** Dictionaries *)

Lemma dict_set_fresh {V} k (v : V) d :
  ~ In k (map fst d) -> dict_set k v d = d ++ [(k, v)].
Proof.
  induction d as [|[k' v'] d IH]; simpl; [reflexivity|].
  intros Hn. destruct (String.eqb_spec k' k) as [->|_]; [tauto|].
  rewrite IH by tauto. reflexivity.
Qed.

Lemma dict_set_In {V} k (v : V) d k' v' :
  In (k', v') (dict_set k v d) -> (k' = k /\ v' = v) \/ In (k', v') d.
Proof.
  induction d as [|[k0 v0] d IH]; simpl.
  - intros [[= <- <-]|[]]. auto.
  - destruct (String.eqb_spec k0 k) as [->|_]; simpl.
    + intros [[= <- <-]|H]; auto.
    + intros [H|H]; [auto|]. destruct (IH H); auto.
Qed.

Lemma dict_get_set_other {V} k (v : V) d k' :
  k' <> k -> dict_get k' (dict_set k v d) = dict_get k' d.
Proof.
  intros Hne. induction d as [|[k0 v0] d IH]; simpl.
  - destruct (String.eqb_spec k k'); [congruence | reflexivity].
  - destruct (String.eqb_spec k0 k) as [->|_]; simpl.
    + destruct (String.eqb_spec k k'); [congruence | reflexivity].
    + rewrite IH. reflexivity.
Qed.

Lemma dict_get_set_same {V} k (v : V) d : dict_get k (dict_set k v d) = Some v.
Proof.
  induction d as [|[k0 v0] d IH]; simpl.
  - rewrite String.eqb_refl. reflexivity.
  - destruct (String.eqb_spec k0 k) as [->|Hne]; simpl.
    + rewrite String.eqb_refl. reflexivity.
    + apply String.eqb_neq in Hne. rewrite Hne. exact IH.
Qed.

Section Rows.
Variables (prefix : string) (multiply : Z).

Lemma row_key_inr i row key :
  row_key multiply i row = inr key -> key = row_key_of multiply i row.
Proof.
  unfold row_key, row_key_of, zfill. destruct (multiply =? 0); [congruence|].
  destruct (in_ssize_t multiply); congruence.
Qed.

Lemma add_row_inr params ir params' :
  add_row prefix multiply params ir = inr params' ->
  params' = put_row prefix multiply params ir.
Proof.
  unfold add_row. destruct (row_key multiply (fst ir) (snd ir)) as [e|key] eqn:Hkey;
    [discriminate|].
  apply row_key_inr in Hkey. subst key. intros [= <-]. reflexivity.
Qed.

(** A loop that ends without raising has stored the entry of each row. *)
Lemma add_rows_inr rows acc params :
  add_rows prefix multiply rows acc = inr params ->
  params = fold_left (put_row prefix multiply) rows acc.
Proof.
  revert acc. induction rows as [|ir rows IH]; intros acc; cbn [add_rows fold_left].
  - congruence.
  - destruct (add_row prefix multiply acc ir) as [e|acc'] eqn:Hrow; [discriminate|].
    apply add_row_inr in Hrow. subst acc'. apply IH.
Qed.

(** No turn raises when [multiply] is zero or a width [zfill] takes. *)
Lemma add_rows_ok rows acc :
  multiply = 0 \/ in_ssize_t multiply = true ->
  add_rows prefix multiply rows acc = inr (fold_left (put_row prefix multiply) rows acc).
Proof.
  intros Hm. revert acc. induction rows as [|ir rows IH]; intros acc;
    cbn [add_rows fold_left]; [reflexivity|].
  assert (Hrow : add_row prefix multiply acc ir = inr (put_row prefix multiply acc ir)).
  { unfold add_row, put_row, grid_entry, row_key, row_key_of, zfill.
    destruct (multiply =? 0) eqn:Hz; [reflexivity|].
    destruct Hm as [-> | ->]; [discriminate | reflexivity]. }
  rewrite Hrow. apply IH.
Qed.

(** The first turn raises when [multiply] is a width [zfill] refuses. *)
Lemma add_rows_refused ir rows acc :
  multiply <> 0 -> in_ssize_t multiply = false ->
  add_rows prefix multiply (ir :: rows) acc =
  inl (OverflowError "Python int too large to convert to C ssize_t").
Proof.
  intros Hm Hw. cbn [add_rows]. unfold add_row, row_key, zfill.
  apply Z.eqb_neq in Hm. rewrite Hm, Hw. reflexivity.
Qed.

(** Whatever the keys, every entry of the result is the entry of a row. *)
Lemma fold_add_row_In rows acc name row :
  In (name, row) (fold_left (put_row prefix multiply) rows acc) ->
  In (name, row) acc \/ exists ir, In ir rows /\ (name, row) = grid_entry prefix multiply ir.
Proof.
  revert acc. induction rows as [|ir rows IH]; intros acc; simpl; [auto|].
  intros H. destruct (IH _ H) as [Hacc|(ir' & Hin & Heq)].
  - unfold put_row in Hacc. apply dict_set_In in Hacc as [[-> ->]|Hacc]; [|auto].
    right. exists ir. split; [auto|]. apply surjective_pairing.
  - right. exists ir'. auto.
Qed.

(** With keys that differ, the loop stores the entries one after the other. *)
Lemma fold_add_row_distinct rows acc :
  List.NoDup (map fst acc ++ map (fun ir => fst (grid_entry prefix multiply ir)) rows) ->
  fold_left (put_row prefix multiply) rows acc =
  acc ++ map (grid_entry prefix multiply) rows.
Proof.
  revert acc. induction rows as [|ir rows IH]; intros acc Hnd; cbn [fold_left map].
  - rewrite app_nil_r. reflexivity.
  - cbn [map] in Hnd. unfold put_row at 2. rewrite dict_set_fresh.
    + rewrite IH.
      * rewrite <- app_assoc. cbn [app]. rewrite <- surjective_pairing. reflexivity.
      * rewrite map_app. cbn [map fst]. rewrite <- app_assoc. exact Hnd.
    + apply NoDup_remove_2 in Hnd. intros Hin. apply Hnd, in_or_app. auto.
Qed.

Lemma enumerate_keys_NoDup start (rows : list (dict pyval)) :
  multiply <> 0 ->
  List.NoDup (map (fun ir => fst (grid_entry prefix multiply ir)) (enumerate start rows)).
Proof.
  intros Hm. unfold enumerate. revert start.
  induction rows as [|row rows IH]; intros start; simpl; constructor.
  - rewrite in_map_iff. intros ([j row'] & Heq & Hin).
    apply grid_entry_key_inj in Heq; [|exact Hm]. subst j.
    apply in_combine_l, in_seq in Hin. lia.
  - apply IH.
Qed.

Lemma enumerate_length {A} start (xs : list A) : length (enumerate start xs) = length xs.
Proof. unfold enumerate. rewrite length_combine, length_seq. lia. Qed.

End Rows.

(** *** Counting the rows *)

Lemma product_length {A} (ls : list (list A)) :
  length (product ls) = list_product (map (@length A) ls).
Proof.
  induction ls as [|l ls IH]; simpl; [reflexivity|].
  rewrite (flat_map_constant_length (c := length (product ls))).
  - rewrite IH. reflexivity.
  - intros x _. apply length_map.
Qed.

Lemma list_product_perm ns ms : Permutation ns ms -> list_product ns = list_product ms.
Proof.
  induction 1; simpl; lia.
Qed.

Lemma insert_item_perm {V} (x : string * V) xs : Permutation (x :: xs) (insert_item x xs).
Proof.
  induction xs as [|y ys IH]; simpl; [reflexivity|].
  destruct (String.leb (fst x) (fst y)); [reflexivity|].
  rewrite perm_swap. constructor. exact IH.
Qed.

Lemma sorted_items_perm {V} (xs : dict V) : Permutation xs (sorted_items xs).
Proof.
  induction xs as [|x xs IH]; simpl; [reflexivity|].
  rewrite <- insert_item_perm. constructor. exact IH.
Qed.

Lemma params_grid_accepted kwargs :
  forallb accepted (map snd kwargs) = true ->
  exists grid,
    params_grid kwargs = inr grid /\
    map fst grid = map fst kwargs /\
    map (fun item => length (snd item)) grid =
      map (fun kv => candidate_count (snd kv)) kwargs /\
    existsb (fun item => Nat.eqb (length (snd item)) 0) grid = false.
Proof.
  induction kwargs as [|[k v] kwargs IH]; simpl.
  - intros _. exists []. auto.
  - rewrite andb_true_iff. intros [Hv Hrest].
    destruct (IH Hrest) as (g & -> & Hk & Hn & He).
    assert (Hc : exists vs, candidates k v = inr vs /\ length vs = candidate_count v /\
                            Nat.eqb (length vs) 0 = false).
    { destruct v as [[| | | | |]|vs|vs]; simpl in Hv |- *; try discriminate; eauto;
        exists vs; rewrite <- negb_true_iff; auto. }
    destruct Hc as (vs & -> & Hlen & Hne).
    exists ((k, vs) :: g). split; [reflexivity|]. split; [|split].
    + cbn [map fst]. rewrite Hk. reflexivity.
    + cbn [map snd]. rewrite Hn, Hlen. reflexivity.
    + cbn [existsb snd]. rewrite Hne, He. reflexivity.
Qed.

Lemma find_existsb_false {A} (f : A -> bool) xs :
  existsb f xs = false -> find f xs = None.
Proof.
  induction xs as [|x xs IH]; simpl; [reflexivity|].
  destruct (f x); [discriminate | exact IH].
Qed.

Lemma ParameterGrid_rows grid :
  existsb (fun item => Nat.eqb (length (snd item)) 0) grid = false ->
  exists rows,
    ParameterGrid grid = inr rows /\
    rows = map (combine (map fst (sorted_items grid)))
             (product (map snd (sorted_items grid))) /\
    length rows = list_product (map (fun item => length (snd item)) grid).
Proof.
  intros He. unfold ParameterGrid. rewrite (find_existsb_false _ _ He).
  exists (map (combine (map fst (sorted_items grid)))
            (product (map snd (sorted_items grid)))).
  split; [destruct (sorted_items grid); reflexivity|]. split; [reflexivity|].
  rewrite length_map, product_length, map_map.
  apply list_product_perm, Permutation_map, Permutation_sym, sorted_items_perm.
Qed.

(** When [multiply] is not zero, the result of a call that succeeds is
    the list of the entries of the rows, numbered from 1. *)
Lemma create_grid_params_entries prefix multiply kwargs grid rows params :
  multiply <> 0 ->
  params_grid kwargs = inr grid ->
  ParameterGrid grid = inr rows ->
  create_grid_params prefix multiply kwargs = inr params ->
  params = map (grid_entry prefix multiply) (enumerate 1 rows).
Proof.
  intros Hm Hg Hrows Hrun. unfold create_grid_params in Hrun. rewrite Hg, Hrows in Hrun.
  apply add_rows_inr in Hrun. subst params.
  rewrite fold_add_row_distinct; [reflexivity|].
  apply enumerate_keys_NoDup. exact Hm.
Qed.

(** What the first loop and [ParameterGrid] have accepted. *)
Lemma params_grid_counts kwargs grid :
  params_grid kwargs = inr grid ->
  map (fun item => length (snd item)) grid =
    map (fun kv => candidate_count (snd kv)) kwargs.
Proof.
  revert grid. induction kwargs as [|[k v] kwargs IH]; intros grid; simpl.
  - intros [= <-]. reflexivity.
  - destruct (candidates k v) as [e|vs] eqn:Hc; [discriminate|].
    destruct (params_grid kwargs) as [e|g]; [discriminate|].
    intros [= <-]. cbn [map snd]. rewrite (IH g eq_refl). f_equal.
    destruct v as [[| | | | |]|xs|xs]; simpl in Hc; try discriminate;
      injection Hc as <-; reflexivity.
Qed.

Lemma ParameterGrid_length grid rows :
  ParameterGrid grid = inr rows ->
  length rows = list_product (map (fun item => length (snd item)) grid).
Proof.
  unfold ParameterGrid. destruct (find _ grid); [discriminate|].
  intros Hrows.
  assert (rows = map (combine (map fst (sorted_items grid)))
                   (product (map snd (sorted_items grid)))) as ->
    by (destruct (sorted_items grid); injection Hrows as <-; reflexivity).
  rewrite length_map, product_length, map_map.
  apply list_product_perm, Permutation_map, Permutation_sym, sorted_items_perm.
Qed.

(** X11. When [multiply] is not zero, the result of a call that succeeds
    has one entry for each combination of candidates, a scalar counting for
    one candidate: their number is the product of the numbers of
    candidates, and no two entries have the same key. *)
Theorem create_grid_params_count prefix multiply kwargs params :
  multiply <> 0 ->
  create_grid_params prefix multiply kwargs = inr params ->
  length params = list_product (map (fun kv => candidate_count (snd kv)) kwargs) /\
  List.NoDup (map fst params).
Proof.
  intros Hm Hrun. pose proof Hrun as Hrun'. unfold create_grid_params in Hrun'.
  destruct (params_grid kwargs) as [e|grid] eqn:Hg; [discriminate|].
  destruct (ParameterGrid grid) as [e|rows] eqn:Hrows; [discriminate|].
  rewrite (create_grid_params_entries prefix multiply kwargs grid rows params Hm Hg Hrows
             Hrun).
  split.
  - rewrite length_map, enumerate_length, (ParameterGrid_length grid rows Hrows).
    rewrite (params_grid_counts kwargs grid Hg). reflexivity.
  - rewrite map_map. apply enumerate_keys_NoDup. exact Hm.
Qed.

Lemma create_grid_params_count_witness :
  length
    [("test@001",
      [("x", PyInt 1); ("y", PyStr "a"); ("z", PyInt 7); ("version", PyStr "test001")]);
     ("test@002",
      [("x", PyInt 1); ("y", PyStr "b"); ("z", PyInt 7); ("version", PyStr "test002")]);
     ("test@003",
      [("x", PyInt 2); ("y", PyStr "a"); ("z", PyInt 7); ("version", PyStr "test003")]);
     ("test@004",
      [("x", PyInt 2); ("y", PyStr "b"); ("z", PyInt 7); ("version", PyStr "test004")])] =
    list_product (map (fun kv => candidate_count (snd kv))
      [("x", PyTuple [PyInt 1; PyInt 2]); ("y", PyTuple [PyStr "a"; PyStr "b"]);
       ("z", Scalar (PyInt 7))]) /\
  List.NoDup (map fst
    [("test@001",
      [("x", PyInt 1); ("y", PyStr "a"); ("z", PyInt 7); ("version", PyStr "test001")]);
     ("test@002",
      [("x", PyInt 1); ("y", PyStr "b"); ("z", PyInt 7); ("version", PyStr "test002")]);
     ("test@003",
      [("x", PyInt 2); ("y", PyStr "a"); ("z", PyInt 7); ("version", PyStr "test003")]);
     ("test@004",
      [("x", PyInt 2); ("y", PyStr "b"); ("z", PyInt 7); ("version", PyStr "test004")])]).
Proof.
  apply (create_grid_params_count "test" 3
           [("x", PyTuple [PyInt 1; PyInt 2]); ("y", PyTuple [PyStr "a"; PyStr "b"]);
            ("z", Scalar (PyInt 7))]);
    [lia | vm_compute; reflexivity].
Defined.

(** *** What the rows hold *)

Lemma product_In {A} (combo : list A) ls :
  In combo (product ls) <-> Forall2 (fun x l => In x l) combo ls.
Proof.
  revert combo. induction ls as [|l ls IH]; intros combo; simpl.
  - split.
    + intros [<-|[]]. constructor.
    + intros H. inversion H. auto.
  - rewrite in_flat_map. split.
    + intros (x & Hx & Hin). apply in_map_iff in Hin as (rest & <- & Hrest).
      constructor; [exact Hx | apply IH, Hrest].
    + intros H. inversion H as [|x l' rest ls' Hx Hrest]; subst.
      exists x. split; [exact Hx|]. apply in_map, IH, Hrest.
Qed.

Lemma ParameterGrid_inr grid rows :
  ParameterGrid grid = inr rows ->
  rows = map (combine (map fst (sorted_items grid)))
           (product (map snd (sorted_items grid))).
Proof.
  unfold ParameterGrid. destruct (find _ grid); [discriminate|].
  destruct (sorted_items grid); intros [= <-]; reflexivity.
Qed.

Lemma params_grid_In kwargs grid :
  params_grid kwargs = inr grid ->
  map fst grid = map fst kwargs /\
  forall k v, In (k, v) kwargs -> exists vs, candidates k v = inr vs /\ In (k, vs) grid.
Proof.
  revert grid. induction kwargs as [|[k v] kwargs IH]; intros grid; simpl.
  - intros [= <-]. split; [reflexivity|]. intros k v [].
  - destruct (candidates k v) as [e|vs] eqn:Hc; [discriminate|].
    destruct (params_grid kwargs) as [e|g]; [discriminate|].
    intros [= <-]. destruct (IH g eq_refl) as [Hk Hin]. split.
    + simpl. rewrite Hk. reflexivity.
    + intros k' v' [[= <- <-]|H].
      * exists vs. split; [exact Hc | left; reflexivity].
      * destruct (Hin k' v' H) as (vs' & Hc' & Hin'). exists vs'. split; [exact Hc'|].
        right. exact Hin'.
Qed.

(** In a row built from items of distinct keys, each key has the value
    chosen for it. *)
Lemma dict_get_combine (items : dict (list pyval)) combo k vs :
  List.NoDup (map fst items) ->
  Forall2 (fun x l => In x l) combo (map snd items) ->
  In (k, vs) items ->
  exists x, dict_get k (combine (map fst items) combo) = Some x /\ In x vs.
Proof.
  revert combo. induction items as [|[k0 vs0] items IH]; intros combo Hnd Hall Hin;
    [destruct Hin|].
  simpl in Hnd, Hall. inversion Hall as [|x l rest ls Hx Hrest]; subst.
  inversion Hnd as [|? ? Hk0 Hnd']; subst. simpl.
  destruct Hin as [[= -> ->]|Hin].
  - rewrite String.eqb_refl. eauto.
  - destruct (String.eqb_spec k0 k) as [->|_].
    + exfalso. apply Hk0. apply (in_map fst) in Hin. exact Hin.
    + apply IH; assumption.
Qed.

Lemma dict_get_combine_pick (keys : list string) (pick : string -> pyval) k :
  In k keys -> dict_get k (combine keys (map pick keys)) = Some (pick k).
Proof.
  induction keys as [|k0 keys IH]; simpl; [tauto|].
  intros Hin. destruct (String.eqb_spec k0 k) as [->|Hne]; [reflexivity|].
  apply IH. destruct Hin; [congruence | assumption].
Qed.

Lemma sorted_items_keys_NoDup {V} (xs : dict V) :
  List.NoDup (map fst xs) -> List.NoDup (map fst (sorted_items xs)).
Proof.
  apply Permutation_NoDup, Permutation_map, sorted_items_perm.
Qed.

(** X12. Every entry of the result, whatever [multiply] is, has a name
    [prefix@key] and a row whose ["version"] is [prefix] followed by the same
    [key], without the ["@"]; the row gives every keyword argument other
    than ["version"] one of its candidates. *)
Theorem create_grid_params_rows prefix multiply kwargs params name row :
  List.NoDup (map fst kwargs) ->
  create_grid_params prefix multiply kwargs = inr params ->
  In (name, row) params ->
  exists key,
    name = (prefix ++ "@" ++ key)%string /\
    dict_get "version" row = Some (PyStr (prefix ++ key)) /\
    forall k v vs,
      In (k, v) kwargs -> k <> "version" -> candidates k v = inr vs ->
      exists x, dict_get k row = Some x /\ In x vs.
Proof.
  intros Hnd Hrun Hin. unfold create_grid_params in Hrun.
  destruct (params_grid kwargs) as [e|grid] eqn:Hg; [discriminate|].
  destruct (ParameterGrid grid) as [e|rows] eqn:Hrows; [discriminate|].
  apply add_rows_inr in Hrun. subst params.
  apply fold_add_row_In in Hin as [[]|([i r] & Hir & Heq)].
  unfold grid_entry in Heq. cbn [fst snd] in Heq. injection Heq as -> ->.
  exists (row_key_of multiply i r). split; [reflexivity|].
  split; [apply dict_get_set_same|].
  intros k v vs Hkv Hk Hc. rewrite dict_get_set_other by exact Hk.
  apply in_combine_r in Hir. apply ParameterGrid_inr in Hrows. subst rows.
  apply in_map_iff in Hir as (combo & <- & Hcombo). apply product_In in Hcombo.
  destruct (params_grid_In kwargs grid Hg) as [Hkeys Hgrid].
  destruct (Hgrid k v Hkv) as (vs' & Hc' & Hin'). rewrite Hc in Hc'. injection Hc' as <-.
  apply dict_get_combine; [| exact Hcombo |].
  - apply sorted_items_keys_NoDup. rewrite Hkeys. exact Hnd.
  - apply (Permutation_in _ (sorted_items_perm grid)). exact Hin'.
Qed.

Lemma create_grid_params_rows_witness :
  exists key,
    "test@x=2#y=a" = ("test" ++ "@" ++ key)%string /\
    dict_get "version" [("x", PyInt 2); ("y", PyStr "a"); ("version", PyStr "testx=2#y=a")]
      = Some (PyStr ("test" ++ key)) /\
    forall k v vs,
      In (k, v) [("y", PyTuple [PyStr "a"; PyStr "b"]); ("x", PyList [PyInt 1; PyInt 2])] ->
      k <> "version" -> candidates k v = inr vs ->
      exists x,
        dict_get k [("x", PyInt 2); ("y", PyStr "a"); ("version", PyStr "testx=2#y=a")]
          = Some x /\ In x vs.
Proof.
  apply (create_grid_params_rows "test" 0
           [("y", PyTuple [PyStr "a"; PyStr "b"]); ("x", PyList [PyInt 1; PyInt 2])]
           [("test@x=1#y=a",
             [("x", PyInt 1); ("y", PyStr "a"); ("version", PyStr "testx=1#y=a")]);
            ("test@x=1#y=b",
             [("x", PyInt 1); ("y", PyStr "b"); ("version", PyStr "testx=1#y=b")]);
            ("test@x=2#y=a",
             [("x", PyInt 2); ("y", PyStr "a"); ("version", PyStr "testx=2#y=a")]);
            ("test@x=2#y=b",
             [("x", PyInt 2); ("y", PyStr "b"); ("version", PyStr "testx=2#y=b")])]
           "test@x=2#y=a"
           [("x", PyInt 2); ("y", PyStr "a"); ("version", PyStr "testx=2#y=a")]).
  - apply NoDup_ListNoDup, (bool_decide_unpack _). vm_compute. exact I.
  - vm_compute. reflexivity.
  - simpl. tauto.
Defined.

(** X13. When [multiply] is not zero no combination is lost: for every
    choice of one candidate for each keyword argument, some entry of the
    result has a row that gives every keyword argument other than
    ["version"] the candidate chosen for it. *)
Theorem create_grid_params_complete prefix multiply kwargs params (pick : string -> pyval) :
  multiply <> 0 ->
  create_grid_params prefix multiply kwargs = inr params ->
  (forall k v vs, In (k, v) kwargs -> candidates k v = inr vs -> In (pick k) vs) ->
  exists name row,
    In (name, row) params /\
    forall k v, In (k, v) kwargs -> k <> "version" -> dict_get k row = Some (pick k).
Proof.
  intros Hm Hrun Hpick. pose proof Hrun as Hrun'. unfold create_grid_params in Hrun'.
  destruct (params_grid kwargs) as [e|grid] eqn:Hg; [discriminate|].
  destruct (ParameterGrid grid) as [e|rows] eqn:Hrows; [discriminate|].
  rewrite (create_grid_params_entries prefix multiply kwargs grid rows params Hm Hg Hrows
             Hrun).
  clear Hrun Hrun'.
  destruct (params_grid_In kwargs grid Hg) as [Hkeys Hgrid].
  set (keys := map fst (sorted_items grid)).
  set (r := combine keys (map pick keys)).
  assert (Hr : In r rows).
  { apply ParameterGrid_inr in Hrows. subst rows. apply in_map, product_In.
    subst keys. clear -Hgrid Hpick Hg.
    assert (Hall : forall k vs, In (k, vs) (sorted_items grid) -> In (pick k) vs).
    { intros k vs Hin.
      apply (Permutation_in _ (Permutation_sym (sorted_items_perm grid))) in Hin.
      clear Hgrid. revert grid Hg Hin. induction kwargs as [|[k0 v0] kwargs IH];
        intros grid Hg Hin; simpl in Hg.
      - injection Hg as <-. destruct Hin.
      - destruct (candidates k0 v0) as [e|vs0] eqn:Hc; [discriminate|].
        destruct (params_grid kwargs) as [e|g]; [discriminate|].
        injection Hg as <-. destruct Hin as [[= <- <-]|Hin].
        + apply (Hpick k0 v0 vs0); [left; reflexivity | exact Hc].
        + apply (IH (fun k v vs H => Hpick k v vs (or_intror H)) g eq_refl Hin). }
    induction (sorted_items grid) as [|[k vs] items IH]; simpl; constructor.
    - apply (Hall k vs). left. reflexivity.
    - apply IH. intros k' vs' H. apply (Hall k' vs'). right. exact H. }
  destruct (In_nth _ _ r Hr) as (j & Hj & Hnth).
  exists (fst (grid_entry prefix multiply (S j, r))), (snd (grid_entry prefix multiply (S j, r))).
  split.
  - rewrite <- surjective_pairing. apply in_map. unfold enumerate.
    assert (Hpair : nth j (combine (seq 1 (length rows)) rows) (0%nat, r) = (S j, r)).
    { rewrite combine_nth by (rewrite length_seq; reflexivity).
      rewrite seq_nth by exact Hj. rewrite Hnth. reflexivity. }
    rewrite <- Hpair. apply nth_In. rewrite length_combine, length_seq, Nat.min_id.
    exact Hj.
  - intros k v Hkv Hk. unfold grid_entry. cbn [fst snd].
    rewrite dict_get_set_other by exact Hk. subst r.
    apply dict_get_combine_pick. subst keys.
    destruct (Hgrid k v Hkv) as (vs & _ & Hin).
    apply (Permutation_in _ (sorted_items_perm grid)) in Hin.
    apply (in_map fst) in Hin. exact Hin.
Qed.

Lemma create_grid_params_complete_witness :
  exists name row,
    In (name, row)
      [("test@001", [("x", PyInt 2); ("y", PyStr "a"); ("version", PyStr "test001")]);
       ("test@002", [("x", PyInt 2); ("y", PyStr "b"); ("version", PyStr "test002")])] /\
    forall k v,
      In (k, v) [("x", Scalar (PyInt 2)); ("y", PyTuple [PyStr "a"; PyStr "b"])] ->
      k <> "version" ->
      dict_get k row = Some ((fun k => if String.eqb k "x" then PyInt 2 else PyStr "b") k).
Proof.
  apply (create_grid_params_complete "test" 3
           [("x", Scalar (PyInt 2)); ("y", PyTuple [PyStr "a"; PyStr "b"])]
           [("test@001", [("x", PyInt 2); ("y", PyStr "a"); ("version", PyStr "test001")]);
            ("test@002", [("x", PyInt 2); ("y", PyStr "b"); ("version", PyStr "test002")])]
           (fun k => if String.eqb k "x" then PyInt 2 else PyStr "b")).
  - lia.
  - vm_compute. reflexivity.
  - intros k v vs [[= <- <-]|[[= <- <-]|[]]] [= <-]; simpl; tauto.
Defined.

(** *** What is refused *)

Lemma params_grid_total kwargs :
  (forall k v, In (k, v) kwargs -> exists vs, candidates k v = inr vs) ->
  exists grid, params_grid kwargs = inr grid.
Proof.
  induction kwargs as [|[k v] kwargs IH]; intros Hall; simpl; [eauto|].
  destruct (Hall k v (or_introl eq_refl)) as [vs ->].
  destruct IH as [g ->]; [|eauto]. intros k' v' H. apply (Hall k' v'). right. exact H.
Qed.

(** X14. A keyword argument that is neither an [int], a [float], a [str],
    a tuple nor a list makes the call raise [AssertionError], whatever the
    other arguments are; when all arguments pass that test, an empty tuple
    or list among them makes the call raise [ValueError]. *)
Theorem create_grid_params_rejects prefix multiply kwargs :
  ((exists k v, In (k, Scalar v) kwargs /\
      (forall z, v <> PyInt z) /\ (forall r, v <> PyFloat r) /\
      (forall s, v <> PyStr s)) ->
   exists k, create_grid_params prefix multiply kwargs = inl (AssertionError k)) /\
  ((forall k v, In (k, v) kwargs -> exists vs, candidates k v = inr vs) ->
   (exists k v, In (k, v) kwargs /\ candidate_count v = 0%nat) ->
   exists k, create_grid_params prefix multiply kwargs = inl (ValueError k)).
Proof.
  split.
  - intros (k & v & Hin & Hint & Hfloat & Hstr).
    assert (Hbad : exists k', params_grid kwargs = inl (AssertionError k')).
    { induction kwargs as [|[k0 v0] kwargs IH]; [destruct Hin|]. simpl.
      destruct (candidates k0 v0) as [e|vs] eqn:Hc.
      - destruct v0 as [[| | | | |]|vs|vs]; simpl in Hc; try discriminate;
          injection Hc as <-; eauto.
      - destruct Hin as [[= -> ->]|Hin].
        + destruct v as [| | | | |]; simpl in Hc; try discriminate;
            [exfalso; eapply Hint | exfalso; eapply Hfloat | exfalso; eapply Hstr];
            reflexivity.
        + destruct (IH Hin) as [k' ->]. eauto. }
    destruct Hbad as [k' Hbad]. exists k'. unfold create_grid_params. rewrite Hbad.
    reflexivity.
  - intros Hall (k & v & Hin & Hzero).
    destruct (params_grid_total kwargs Hall) as [grid Hg].
    destruct (params_grid_In kwargs grid Hg) as [_ Hgrid].
    destruct (Hgrid k v Hin) as (vs & Hc & Hin').
    assert (Hlen : length vs = 0%nat).
    { destruct v as [[| | | | |]|xs|xs]; simpl in Hc, Hzero; try discriminate;
        injection Hc as <-; exact Hzero. }
    unfold create_grid_params, ParameterGrid. rewrite Hg.
    destruct (find (fun item => Nat.eqb (length (snd item)) 0) grid) as [item|] eqn:Hf;
      [eauto|].
    apply (find_none _ _ Hf) in Hin'. simpl in Hin'. rewrite Hlen in Hin'. discriminate.
Qed.

Lemma create_grid_params_rejects_witness :
  (exists k, create_grid_params "test" 3 [("x", Scalar (PyBool true))] =
     inl (AssertionError k)) /\
  (exists k, create_grid_params "test" 3 [("y", PyList [])] = inl (ValueError k)).
Proof.
  split.
  - apply (proj1 (create_grid_params_rejects "test" 3 [("x", Scalar (PyBool true))])).
    exists "x", (PyBool true). split; [left; reflexivity|]. repeat split; discriminate.
  - apply (proj2 (create_grid_params_rejects "test" 3 [("y", PyList [])])).
    + intros k v [[= <- <-]|[]]. simpl. eauto.
    + exists "y", (PyList []). split; [left; reflexivity | reflexivity].
Defined.

(** *** The order of the keyword arguments *)

Lemma string_leb_trans s1 s2 s3 :
  String.leb s1 s2 = true -> String.leb s2 s3 = true -> String.leb s1 s3 = true.
Proof.
  unfold String.leb. revert s2 s3.
  induction s1 as [|a s1 IH]; intros [|b s2] [|c s3]; simpl; try congruence.
  destruct (Ascii.compare a b) eqn:Hab; try discriminate;
    destruct (Ascii.compare b c) eqn:Hbc; try discriminate.
  - apply Ascii.compare_eq_iff in Hab, Hbc. subst b c.
    unfold Ascii.compare. rewrite N.compare_refl. apply IH.
  - apply Ascii.compare_eq_iff in Hab. subst b. rewrite Hbc. reflexivity.
  - apply Ascii.compare_eq_iff in Hbc. subst c. rewrite Hab. reflexivity.
  - intros _ _.
    assert (Hac : Ascii.compare a c = Lt).
    { unfold Ascii.compare in *. rewrite N.compare_lt_iff in *. lia. }
    rewrite Hac. reflexivity.
Qed.

Lemma insert_item_sorted {V} (x : string * V) xs :
  StronglySorted (fun a b => String.leb (fst a) (fst b) = true) xs ->
  StronglySorted (fun a b => String.leb (fst a) (fst b) = true) (insert_item x xs).
Proof.
  induction 1 as [|y ys Hys IH Hall]; simpl.
  - constructor; constructor.
  - destruct (String.leb (fst x) (fst y)) eqn:Hxy.
    + constructor; [constructor; assumption|]. constructor; [exact Hxy|].
      rewrite List.Forall_forall in Hall |- *. intros z Hz.
      eapply string_leb_trans; [exact Hxy | apply Hall, Hz].
    + constructor; [exact IH|].
      rewrite List.Forall_forall in Hall |- *. intros z Hz.
      apply (Permutation_in _ (Permutation_sym (insert_item_perm x ys))) in Hz.
      destruct Hz as [<-|Hz]; [|apply Hall, Hz].
      destruct (String.leb_total (fst x) (fst y)) as [H|H]; [congruence | exact H].
Qed.

Lemma sorted_items_sorted {V} (xs : dict V) :
  StronglySorted (fun a b => String.leb (fst a) (fst b) = true) (sorted_items xs).
Proof.
  induction xs as [|x xs IH]; simpl; [constructor|]. apply insert_item_sorted, IH.
Qed.

(** Two sorted lists of items with the same items and distinct keys are
    the same list. *)
Lemma sorted_unique {V} (xs ys : dict V) :
  StronglySorted (fun a b => String.leb (fst a) (fst b) = true) xs ->
  StronglySorted (fun a b => String.leb (fst a) (fst b) = true) ys ->
  List.NoDup (map fst xs) ->
  Permutation xs ys ->
  xs = ys.
Proof.
  intros Hxs. revert ys. induction Hxs as [|x xs Hxs IH Hx]; intros ys Hys Hnd Hperm.
  - apply Permutation_nil in Hperm. congruence.
  - destruct Hys as [|y ys Hys Hy]; [apply Permutation_sym, Permutation_nil in Hperm;
                                     discriminate|].
    assert (Hxy : x = y).
    { assert (Hin_x : In x (y :: ys)) by (apply (Permutation_in _ Hperm); left; reflexivity).
      assert (Hin_y : In y (x :: xs))
        by (apply (Permutation_in _ (Permutation_sym Hperm)); left; reflexivity).
      destruct Hin_x as [->|Hin_x]; [reflexivity|].
      destruct Hin_y as [->|Hin_y]; [reflexivity|].
      rewrite List.Forall_forall in Hx, Hy.
      assert (Hk : fst x = fst y)
        by (apply String.leb_antisym; [apply Hx, Hin_y | apply Hy, Hin_x]).
      exfalso. simpl in Hnd. apply NoDup_cons_iff in Hnd as [Hnot _]. apply Hnot.
      rewrite Hk. apply in_map, Hin_y. }
    subst y. f_equal. apply IH; [exact Hys | | eapply Permutation_cons_inv; exact Hperm].
    simpl in Hnd. apply NoDup_cons_iff in Hnd. tauto.
Qed.

Lemma sorted_items_perm_eq {V} (xs ys : dict V) :
  List.NoDup (map fst xs) -> Permutation xs ys -> sorted_items xs = sorted_items ys.
Proof.
  intros Hnd Hperm. apply sorted_unique.
  - apply sorted_items_sorted.
  - apply sorted_items_sorted.
  - apply sorted_items_keys_NoDup, Hnd.
  - rewrite <- (sorted_items_perm xs), <- (sorted_items_perm ys). exact Hperm.
Qed.

Lemma params_grid_perm kwargs kwargs' :
  Permutation kwargs kwargs' ->
  forall grid, params_grid kwargs = inr grid ->
  exists grid', params_grid kwargs' = inr grid' /\ Permutation grid grid'.
Proof.
  induction 1 as [|[k v] l l' Hperm IH|[k1 v1] [k2 v2] l|l1 l2 l3 H12 IH12 H23 IH23];
    intros grid Hg.
  - eauto.
  - simpl in Hg |- *. destruct (candidates k v) as [e|vs]; [discriminate|].
    destruct (params_grid l) as [e|g]; [discriminate|]. injection Hg as <-.
    destruct (IH g eq_refl) as (g' & -> & Hp). eauto.
  - simpl in Hg |- *.
    destruct (candidates k2 v2) as [e|vs2]; [discriminate|].
    destruct (candidates k1 v1) as [e|vs1]; [discriminate|].
    destruct (params_grid l) as [e|g]; [discriminate|]. injection Hg as <-.
    eexists. split; [reflexivity | apply perm_swap].
  - destruct (IH12 grid Hg) as (g2 & Hg2 & Hp2).
    destruct (IH23 g2 Hg2) as (g3 & Hg3 & Hp3).
    exists g3. split; [exact Hg3 | etransitivity; eassumption].
Qed.

(** X15. The order in which the keyword arguments are given does not
    matter: a call that succeeds gives the same result, entries and rows in
    the same order, when the same keyword arguments are given in another
    order. *)
Theorem create_grid_params_any_order prefix multiply kwargs kwargs' params :
  Permutation kwargs kwargs' ->
  List.NoDup (map fst kwargs) ->
  create_grid_params prefix multiply kwargs = inr params ->
  create_grid_params prefix multiply kwargs' = inr params.
Proof.
  intros Hperm Hnd Hrun. unfold create_grid_params in *.
  destruct (params_grid kwargs) as [e|grid] eqn:Hg; [discriminate|].
  destruct (params_grid_perm kwargs kwargs' Hperm grid Hg) as (grid' & -> & Hp).
  destruct (ParameterGrid grid) as [e|rows] eqn:Hrows; [discriminate|].
  assert (Hrows' : ParameterGrid grid' = inr rows).
  { unfold ParameterGrid in Hrows |- *.
    destruct (find _ grid) as [item|] eqn:Hf; [discriminate|].
    destruct (find (fun item => Nat.eqb (length (snd item)) 0) grid') as [item|] eqn:Hf'.
    - apply find_some in Hf' as [Hin Hzero].
      apply (Permutation_in _ (Permutation_sym Hp)) in Hin.
      apply (find_none _ _ Hf) in Hin. congruence.
    - rewrite <- (sorted_items_perm_eq grid grid'); [exact Hrows | | exact Hp].
      destruct (params_grid_In kwargs grid Hg) as [-> _]. exact Hnd. }
  rewrite Hrows'. exact Hrun.
Qed.

Lemma create_grid_params_any_order_witness :
  create_grid_params "test" 0
    [("x", PyList [PyInt 1; PyInt 2]); ("y", PyTuple [PyStr "a"; PyStr "b"])] =
  inr [("test@x=1#y=a", [("x", PyInt 1); ("y", PyStr "a"); ("version", PyStr "testx=1#y=a")]);
       ("test@x=1#y=b", [("x", PyInt 1); ("y", PyStr "b"); ("version", PyStr "testx=1#y=b")]);
       ("test@x=2#y=a", [("x", PyInt 2); ("y", PyStr "a"); ("version", PyStr "testx=2#y=a")]);
       ("test@x=2#y=b", [("x", PyInt 2); ("y", PyStr "b"); ("version", PyStr "testx=2#y=b")])].
Proof.
  apply (create_grid_params_any_order "test" 0
           [("y", PyTuple [PyStr "a"; PyStr "b"]); ("x", PyList [PyInt 1; PyInt 2])]
           [("x", PyList [PyInt 1; PyInt 2]); ("y", PyTuple [PyStr "a"; PyStr "b"])]).
  - apply perm_swap.
  - apply NoDup_ListNoDup, (bool_decide_unpack _). vm_compute. exact I.
  - vm_compute. reflexivity.
Defined.


(** *** A width that is refused *)

Lemma list_product_positive ns :
  existsb (fun n => Nat.eqb n 0) ns = false -> (0 < list_product ns)%nat.
Proof.
  induction ns as [|n ns IH]; simpl; [lia|].
  destruct (Nat.eqb_spec n 0); [discriminate|]. intros H. specialize (IH H). nia.
Qed.

(** X18. When [multiply] is no [ssize_t] and every keyword argument is an
    [int], a [float], a [str] or a tuple or list that is not empty, the call
    raises the [OverflowError] of [zfill] at the first row. *)
Theorem create_grid_params_refuses_width prefix multiply kwargs :
  in_ssize_t multiply = false ->
  forallb accepted (map snd kwargs) = true ->
  create_grid_params prefix multiply kwargs =
  inl (OverflowError "Python int too large to convert to C ssize_t").
Proof.
  intros Hw Hacc.
  assert (Hm : multiply <> 0) by (intros ->; discriminate).
  destruct (params_grid_accepted kwargs Hacc) as (grid & Hg & _ & _ & He).
  destruct (ParameterGrid_rows grid He) as (rows & Hrows & _ & Hlen).
  assert (Hpos : (0 < length rows)%nat).
  { rewrite Hlen. apply list_product_positive. clear -He.
    induction grid as [|item grid IH]; simpl in *; [reflexivity|].
    destruct (Nat.eqb (length (snd item)) 0); [discriminate|]. apply IH, He. }
  unfold create_grid_params. rewrite Hg, Hrows.
  destruct rows as [|row rows]; [simpl in Hpos; lia|].
  apply add_rows_refused; assumption.
Qed.

Lemma create_grid_params_refuses_width_witness :
  create_grid_params "test" (2 ^ 63) [("x", PyList [PyInt 1; PyInt 2])] =
  inl (OverflowError "Python int too large to convert to C ssize_t").
Proof.
  apply (create_grid_params_refuses_width "test" (2 ^ 63) [("x", PyList [PyInt 1; PyInt 2])]);
    reflexivity.
Defined.
